(** * The judge of cloud-native-distributed-code-judge (src/judge.py)

    A shallow embedding of [execute_code] and [execute_code_sync] and of the
    test script that both functions build for every test case.

    - [Py]: the Python values that [json.loads] returns and the few
      built-ins the judge applies to them ([len], iteration, [dict.get],
      [str.strip], [str] of an integer, [==]).
    - [Harness]: the body of the generated test script, the part that runs
      inside the container.
    - [Judge]: the two functions of src/judge.py, on the host.  The library
      calls [json.loads], [json.dumps] and [subprocess.run] are fields of a
      [World]; the loop is a fold over the enumerated suite that threads the
      two locals [results] and [passed_count] and a log of the calls of
      [subprocess.run].
    - [Scenario]: concrete worlds and submissions for the closed examples.
    - [App]: the handlers of src/app.py over a database of three tables,
      and [get_cors_origins]; [Sample] is a small database for examples. *)

From Stdlib Require Import ZArith List String Ascii Bool Lia.
From Stdlib Require Import DecimalString SpecFloat.
Import ListNotations.
#[local] Set Warnings "-register-all".
Open Scope string_scope.

(* ===================================================================== *)
(** ** Python values and built-ins *)

Module Py.

(** What [json.loads] can return: [None], [bool], [int], [float], [str],
    [list] and [dict] with [str] keys.  A [float] is a binary64 value in
    canonical form; a [str] is given by its bytes (the examples are ASCII);
    a [dict] keeps its items in insertion order, its keys pairwise
    distinct. *)
Inductive json : Type :=
| JNull
| JBool (b : bool)
| JInt (n : Z)
| JFloat (f : spec_float)
| JStr (s : string)
| JArr (xs : list json)
| JObj (kv : list (string * json)).

Inductive py_type : Type :=
| TNone | TBool | TInt | TFloat | TStr | TList | TDict.

Definition type_of (v : json) : py_type :=
  match v with
  | JNull => TNone
  | JBool _ => TBool
  | JInt _ => TInt
  | JFloat _ => TFloat
  | JStr _ => TStr
  | JArr _ => TList
  | JObj _ => TDict
  end.

(** [type(v).__name__] *)
Definition type_name (t : py_type) : string :=
  match t with
  | TNone => "NoneType"
  | TBool => "bool"
  | TInt => "int"
  | TFloat => "float"
  | TStr => "str"
  | TList => "list"
  | TDict => "dict"
  end.

(** An exception object: its class and [str(e)]. *)
Record exn : Type := Exn { exc_class : string; exc_msg : string }.

Definition AttributeError (t : py_type) (attr : string) : exn :=
  Exn "AttributeError"
      ("'" ++ type_name t ++ "' object has no attribute '" ++ attr ++ "'").

Definition NameError (name : string) : exn :=
  Exn "NameError" ("name '" ++ name ++ "' is not defined").

Definition TypeError (msg : string) : exn := Exn "TypeError" msg.

(** [d[key]] on the items of a dict *)
Fixpoint lookup (kv : list (string * json)) (key : string) : option json :=
  match kv with
  | [] => None
  | (k, v) :: rest => if String.eqb k key then Some v else lookup rest key
  end.

(** [v.get(key, default)]: only a dict has the method. *)
Definition get (v : json) (key : string) (default : json) : exn + json :=
  match v with
  | JObj kv => inr (match lookup kv key with Some x => x | None => default end)
  | _ => inl (AttributeError (type_of v) "get")
  end.

(** The characters of a [str], each as a [str] of length one. *)
Fixpoint chars (s : string) : list json :=
  match s with
  | EmptyString => []
  | String c r => JStr (String c EmptyString) :: chars r
  end.

(** [len(v)]: defined on [list], [dict] and [str], a [TypeError] elsewhere. *)
Definition len (v : json) : exn + nat :=
  match v with
  | JArr xs => inr (List.length xs)
  | JObj kv => inr (List.length kv)
  | JStr s => inr (String.length s)
  | _ => inl (TypeError ("object of type '" ++ type_name (type_of v)
                          ++ "' has no len()"))
  end.

(** What [for x in v] visits: the elements of a list, the keys of a dict,
    the characters of a str. *)
Definition iter (v : json) : list json :=
  match v with
  | JArr xs => xs
  | JObj kv => map (fun p => JStr (fst p)) kv
  | JStr s => chars s
  | _ => []
  end.

(** [enumerate(l)], counting from [start]. *)
Fixpoint enumerate_from (start : nat) (l : list json) : list (nat * json) :=
  match l with
  | [] => []
  | x :: r => (start, x) :: enumerate_from (S start) r
  end.

Definition enumerate (l : list json) : list (nat * json) := enumerate_from 0 l.

(** [str(n)] for an [int]. *)
Definition str_nat (n : nat) : string := NilEmpty.string_of_uint (Nat.to_uint n).
Definition str_int (z : Z) : string := NilZero.string_of_int (Z.to_int z).

(** White space as [str.isspace] has it among the ASCII characters.  The
    strings of the model are ASCII texts: [str.strip] also removes the
    white space beyond ASCII (U+0085, U+00A0, U+2003 and the like), which
    this [isspace] does not know. *)
Definition isspace (c : ascii) : bool :=
  let n := nat_of_ascii c in
  ((9 <=? n)%nat && (n <=? 13)%nat) || ((28 <=? n)%nat && (n <=? 32)%nat).

Fixpoint lstrip (s : string) : string :=
  match s with
  | EmptyString => EmptyString
  | String c r => if isspace c then lstrip r else s
  end.

Fixpoint rstrip (s : string) : string :=
  match s with
  | EmptyString => EmptyString
  | String c r =>
      match rstrip r with
      | EmptyString => if isspace c then EmptyString else String c EmptyString
      | r' => String c r'
      end
  end.

(** [s.strip()] *)
Definition strip (s : string) : string := rstrip (lstrip s).

(** Truth value of a [str]: non-empty. *)
Definition truthy (s : string) : bool :=
  match s with EmptyString => false | _ => true end.

(** [x or y] on two [str]. *)
Definition str_or (x y : string) : string := if truthy x then x else y.

(** *** Equality, [==]

    Numbers compare by value across [bool], [int] and [float]; [None] equals
    only [None]; lists compare element by element, dicts key by key. *)

(** The integer a finite float denotes, when it denotes one. *)
Definition float_as_int (f : spec_float) : option Z :=
  match f with
  | S754_zero _ => Some 0%Z
  | S754_finite s m e =>
      let sign := if s then (-1)%Z else 1%Z in
      if (0 <=? e)%Z then Some (sign * (Z.pos m * 2 ^ e))%Z
      else if (Z.pos m mod 2 ^ (- e) =? 0)%Z
           then Some (sign * (Z.pos m / 2 ^ (- e)))%Z
           else None
  | _ => None
  end.

Definition int_eq_float (n : Z) (f : spec_float) : bool :=
  match float_as_int f with
  | Some k => Z.eqb n k
  | None => false
  end.

Definition bool_int (b : bool) : Z := if b then 1%Z else 0%Z.

Fixpoint eq (a b : json) {struct a} : bool :=
  match a, b with
  | JNull, JNull => true
  | JStr s, JStr t => String.eqb s t
  | JBool x, JBool y => Bool.eqb x y
  | JBool x, JInt n => Z.eqb (bool_int x) n
  | JInt n, JBool y => Z.eqb n (bool_int y)
  | JInt n, JInt m => Z.eqb n m
  | JBool x, JFloat f => int_eq_float (bool_int x) f
  | JFloat f, JBool y => int_eq_float (bool_int y) f
  | JInt n, JFloat f => int_eq_float n f
  | JFloat f, JInt n => int_eq_float n f
  | JFloat f, JFloat g => SFeqb f g
  | JArr xs, JArr ys =>
      (fix all2 (xs ys : list json) {struct xs} : bool :=
         match xs, ys with
         | [], [] => true
         | x :: xs', y :: ys' => eq x y && all2 xs' ys'
         | _, _ => false
         end) xs ys
  | JObj kv, JObj kw =>
      Nat.eqb (List.length kv) (List.length kw) &&
      (fix each (kv : list (string * json)) {struct kv} : bool :=
         match kv with
         | [] => true
         | (k, v) :: kv' =>
             match lookup kw k with
             | Some w => eq v w && each kv'
             | None => false
             end
         end) kv
  | _, _ => false
  end.

End Py.

(* ===================================================================== *)
(** ** The test script, inside the container

    Both functions of src/judge.py generate the same script body around the
    submitted code.  The script is Python source of this repository, carried
    in an f-string; this module gives its meaning.

    The submitted code is any Python text, so it is represented by what
    running it at module level leaves behind: it raises, it exits the
    interpreter, or it binds names.  A callable takes positional and keyword
    arguments; it returns a value, raises an exception of class [Exception]
    or below, or leaves the interpreter with [sys.exit(status)], a
    [SystemExit] that [except Exception] does not catch.

    What the module leaves out: the submitted code is taken to print
    nothing by itself, to leave the names [json], [print], [isinstance],
    [dict], [list] and [Exception] of the script as they are, and to
    return values that [json.dumps] can write; the pasted values are
    nested less deep than the Python parser allows, and their strings are
    of the Basic Multilingual Plane. *)

Module Harness.
Import Py.

Inductive returned : Type :=
| Return (v : json)
| Raise (e : exn)
| Exit (status : Z).

Definition callable : Type := list json -> list (string * json) -> returned.

Record program : Type := Program {
  globals : string -> option json;   (* data names the code binds *)
  solution : option callable         (* the name [solution], when bound *)
}.

Inductive code_result : Type :=
| CodeRaises (e : exn)
| CodeExits (status : Z)
| CodeDefines (p : program).

(** Reading a name. *)
Definition name (g : string -> option json) (x : string) : exn + json :=
  match g x with
  | Some v => inr v
  | None => inl (NameError x)
  end.

(** Unary minus. *)
Definition neg (v : json) : exn + json :=
  match v with
  | JInt n => inr (JInt (- n))
  | JBool b => inr (JInt (- bool_int b))
  | JFloat f => inr (JFloat (SFopp f))
  | _ => inl (TypeError ("bad operand type for unary -: '"
                          ++ type_name (type_of v) ++ "'"))
  end.

(** The lines [test_input = {json.dumps(...)}] and
    [expected_output = {json.dumps(...)}] paste JSON text into Python
    source.  [json.dumps] writes [None] as [null], [True] as [true], [False]
    as [false], a NaN as [NaN] and the infinities as [Infinity] and
    [-Infinity]; Python reads each of these as a name.  Numbers, strings
    (of the Basic Multilingual Plane), arrays and objects are written as
    the Python literals and displays of the same value; their parts are
    evaluated from left to right. *)
Fixpoint literal (g : string -> option json) (j : json) {struct j} : exn + json :=
  match j with
  | JNull => name g "null"
  | JBool true => name g "true"
  | JBool false => name g "false"
  | JInt n => inr (JInt n)
  | JFloat S754_nan => name g "NaN"
  | JFloat (S754_infinity false) => name g "Infinity"
  | JFloat (S754_infinity true) =>
      match name g "Infinity" with
      | inl e => inl e
      | inr v => neg v
      end
  | JFloat f => inr (JFloat f)
  | JStr s => inr (JStr s)
  | JArr xs =>
      match
        (fix items (xs : list json) {struct xs} : exn + list json :=
           match xs with
           | [] => inr []
           | x :: r =>
               match literal g x with
               | inl e => inl e
               | inr v => match items r with
                          | inl e => inl e
                          | inr vs => inr (v :: vs)
                          end
               end
           end) xs
      with
      | inl e => inl e
      | inr vs => inr (JArr vs)
      end
  | JObj kv =>
      match
        (fix items (kv : list (string * json)) {struct kv}
           : exn + list (string * json) :=
           match kv with
           | [] => inr []
           | (k, x) :: r =>
               match literal g x with
               | inl e => inl e
               | inr v => match items r with
                          | inl e => inl e
                          | inr vs => inr ((k, v) :: vs)
                          end
               end
           end) kv
      with
      | inl e => inl e
      | inr vs => inr (JObj vs)
      end
  end.

(** The three call shapes of the [if]/[elif]/[else] chain. *)
Inductive call_shape : Type :=
| Keyword (kwargs : list (string * json))   (* solution( **test_input ) *)
| Positional (args : list json)             (* solution( *test_input ) *)
| Single (arg : json).                      (* solution(test_input) *)

Definition bind_input (test_input : json) : call_shape :=
  match test_input with
  | JObj kv => Keyword kv
  | JArr xs => Positional xs
  | v => Single v
  end.

(** Which of the three shapes, the arguments forgotten. *)
Inductive shape_kind : Type := ByKeyword | ByPosition | AsSingle.

Definition kind (c : call_shape) : shape_kind :=
  match c with
  | Keyword _ => ByKeyword
  | Positional _ => ByPosition
  | Single _ => AsSingle
  end.

Definition invoke (f : callable) (c : call_shape) : returned :=
  match c with
  | Keyword kwargs => f [] kwargs
  | Positional args => f args []
  | Single arg => f [arg] []
  end.

(** [result = solution(...)], the name [solution] read at the call. *)
Definition call_solution (p : program) (test_input : json) : returned :=
  match solution p with
  | None => Raise (NameError "solution")
  | Some f => invoke f (bind_input test_input)
  end.

Definition index (idx : nat) : json := JInt (Z.of_nat idx).

(** The three records the script prints.  [execute_code] puts the result
    in the passed record, [execute_code_sync] does not. *)
Definition passed_record (with_output : bool) (idx : nat) (result : json) : json :=
  JObj ([("status", JStr "passed"); ("test_case", index idx)]
        ++ if with_output then [("output", result)] else []).

Definition failed_record (idx : nat) (expected got : json) : json :=
  JObj [("status", JStr "failed"); ("test_case", index idx);
        ("expected", expected); ("got", got)].

Definition error_record (idx : nat) (msg : string) : json :=
  JObj [("status", JStr "error"); ("test_case", index idx);
        ("error", JStr msg)].

(** How the interpreter ends: one record on stdout and status 0; an
    exception nobody caught (a traceback on stderr, status 1); or an exit
    asked by the submitted code, nothing printed. *)
Inductive ending : Type :=
| Printed (record : json)
| Uncaught (e : exn)
| Exited (status : Z).

(** The [try] block and its handler. *)
Definition try_block (with_output : bool) (p : program)
    (test_input expected_output : json) (idx : nat) : ending :=
  match call_solution p test_input with
  | Raise e => Printed (error_record idx (exc_msg e))
  | Exit status => Exited status
  | Return result =>
      Printed (if eq result expected_output
               then passed_record with_output idx result
               else failed_record idx expected_output result)
  end.

(** The whole script for the test case [idx] whose input and expected
    output were dumped from [input] and [output]. *)
Definition run (with_output : bool) (c : code_result)
    (input output : json) (idx : nat) : ending :=
  match c with
  | CodeRaises e => Uncaught e
  | CodeExits status => Exited status
  | CodeDefines p =>
      match literal (globals p) input with
      | inl e => Uncaught e
      | inr test_input =>
          match literal (globals p) output with
          | inl e => Uncaught e
          | inr expected_output =>
              try_block with_output p test_input expected_output idx
          end
      end
  end.

End Harness.

(* ===================================================================== *)
(** ** src/judge.py, on the host *)

Module Judge.
Import Py.

(** What a library call raises into the judge: [subprocess.TimeoutExpired],
    which [execute_code] handles apart, or any other [Exception]. *)
Inductive raised : Type :=
| TimeoutExpired
| Exception (e : exn).

(** [subprocess.CompletedProcess] with [capture_output=True, text=True]. *)
Record completed : Type := CompletedProcess {
  returncode : Z;
  stdout : string;
  stderr : string
}.

(** The library calls of the judge.  [json_loads s] is [json.loads(s)] on a
    [str]: a value, or the exception it raises, which is a
    [json.JSONDecodeError] for a text that is no JSON and another
    [Exception] otherwise (a [RecursionError] for a text nested too deep,
    a [ValueError] for an integer of more than 4300 digits).
    [subprocess_run idx argv timeout] is the call of [subprocess.run] made
    in the iteration [idx] of the loop (each iteration makes at most one). *)
Record World : Type := {
  json_loads : string -> exn + json;
  json_dumps : json -> string;
  subprocess_run : nat -> list string -> Z -> raised + completed
}.

Definition JSONDecodeError (msg : string) : exn := Exn "JSONDecodeError" msg.

(** What [except json.JSONDecodeError] catches. *)
Definition is_JSONDecodeError (e : exn) : bool :=
  String.eqb (exc_class e) "JSONDecodeError".

(** The returned dict.  [message] and [test_results] are keys that some
    of the returned dicts lack. *)
Record verdict : Type := Verdict {
  status : string;
  message : option string;
  passed : nat;
  total : nat;
  test_results : option (list json)
}.

(** A call of the judge returns a verdict or lets an exception through;
    either way it has made the calls of [launches], in order. *)
Inductive outcome : Type :=
| Returns (v : verdict)
| Raises (e : exn).

Definition nl : string := String (ascii_of_nat 10) EmptyString.
Definition dq : string := String (ascii_of_nat 34) EmptyString.
Definition q (s : string) : string := dq ++ s ++ dq.

(** A triple-quoted text: a newline, then every line with its newline. *)
Definition text (lines : list string) : string :=
  nl ++ String.concat EmptyString (map (fun l => l ++ nl) lines).

(** Lines 43 to 55 (and 146 to 158) of the script; [passed_fields] is what
    follows the index in the passed record. *)
Definition try_lines (idx : nat) (passed_fields : string) : list string :=
  [ "try:";
    "    if isinstance(test_input, dict):";
    "        result = solution(**test_input)";
    "    elif isinstance(test_input, list):";
    "        result = solution(*test_input)";
    "    else:";
    "        result = solution(test_input)";
    EmptyString;
    "    if result == expected_output:";
    "        print(json.dumps({" ++ q "status" ++ ": " ++ q "passed" ++ ", "
      ++ q "test_case" ++ ": " ++ str_nat idx ++ passed_fields ++ "}))";
    "    else:";
    "        print(json.dumps({" ++ q "status" ++ ": " ++ q "failed" ++ ", "
      ++ q "test_case" ++ ": " ++ str_nat idx ++ ", " ++ q "expected"
      ++ ": expected_output, " ++ q "got" ++ ": result}))";
    "except Exception as e:";
    "    print(json.dumps({" ++ q "status" ++ ": " ++ q "error" ++ ", "
      ++ q "test_case" ++ ": " ++ str_nat idx ++ ", " ++ q "error"
      ++ ": str(e)}))" ].

(** The f-string of [execute_code], its three holes filled. *)
Definition script (code test_input expected_output : string) (idx : nat) : string :=
  text ([ "import json";
          "import sys";
          EmptyString;
          code;
          EmptyString;
          "# Test case input";
          "test_input = " ++ test_input;
          "expected_output = " ++ expected_output;
          EmptyString ]
        ++ try_lines idx (", " ++ q "output" ++ ": result")).

(** The f-string of [execute_code_sync]. *)
Definition script_sync (code test_input expected_output : string) (idx : nat) : string :=
  text ([ "import json";
          code;
          EmptyString;
          "test_input = " ++ test_input;
          "expected_output = " ++ expected_output;
          EmptyString ]
        ++ try_lines idx EmptyString).

(** Filling the holes: [test_case.get('input', {})] and
    [test_case.get('output')] raise on a test case that is not a dict. *)
Definition fill (W : World) (template : string -> string -> string -> nat -> string)
    (code : string) (idx : nat) (test_case : json) : exn + string :=
  match get test_case "input" (JObj []) with
  | inl e => inl e
  | inr input =>
      match get test_case "output" JNull with
      | inl e => inl e
      | inr output =>
          inr (template code (json_dumps W input) (json_dumps W output) idx)
      end
  end.

Definition docker_argv (test_script : string) : list string :=
  [ "docker"; "run"; "--rm"; "--memory=256m"; "--cpus=0.5";
    "python:3.11-slim"; "python"; "-c"; test_script ].

Definition docker_argv_sync (test_script : string) : list string :=
  [ "docker"; "run"; "--rm"; "python:3.11-slim"; "python"; "-c"; test_script ].

(** The locals the loop updates, and the log of the calls of
    [subprocess.run], each a [docker run] command. *)
Record locals : Type := Locals {
  results : list json;
  passed_count : nat;
  launches : list (list string)
}.

Definition append (r : json) (st : locals) : locals :=
  Locals (results st ++ [r]) (passed_count st) (launches st).

Definition count_passed (st : locals) : locals :=
  Locals (results st) (S (passed_count st)) (launches st).

Definition launch (argv : list string) (st : locals) : locals :=
  Locals (results st) (passed_count st) (launches st ++ [argv]).

Definition index (idx : nat) : json := JInt (Z.of_nat idx).

Definition error_entry (idx : nat) (msg : string) : json :=
  JObj [("status", JStr "error"); ("test_case", index idx);
        ("error", JStr msg)].

Definition timeout_entry (idx : nat) (timeout : Z) : json :=
  error_entry idx ("Timeout exceeded (" ++ str_int timeout ++ "s)").

Definition warning_entry (idx : nat) : json :=
  JObj [("status", JStr "warning"); ("test_case", index idx);
        ("message", JStr "Docker not available, using local execution")].

(** Lines 77 to 82 (and 177 to 182): the captured stdout of a run that
    ended with status 0. *)
Definition record_stdout (W : World) (out : string) (st : locals)
    : locals * option raised :=
  let output := strip out in
  if truthy output then
    match json_loads W output with
    | inl e => (st, Some (Exception e))
    | inr test_result =>
        match get test_result "status" JNull with
        | inl e => (st, Some (Exception e))
        | inr s =>
            (append test_result
               (if eq s (JStr "passed") then count_passed st else st), None)
        end
    end
  else (st, None).

(** *** [execute_code] *)

(** The [try] block of the loop body, lines 30 to 90: the locals it leaves
    and the exception it ends with, if any. *)
Definition try_block (W : World) (code : string) (timeout : Z)
    (idx : nat) (test_case : json) (st : locals) : locals * option raised :=
  match fill W script code idx test_case with
  | inl e => (st, Some (Exception e))
  | inr test_script =>
      let argv := docker_argv test_script in
      let st := launch argv st in
      match subprocess_run W idx argv timeout with
      | inl r => (st, Some r)
      | inr result =>
          if (returncode result =? 0)%Z then record_stdout W (stdout result) st
          else (append (error_entry idx
                          (str_or (stderr result) "Execution failed")) st, None)
      end
  end.

(** One iteration: the [try] block and its two handlers. *)
Definition iteration (W : World) (code : string) (timeout : Z)
    (st : locals) (it : nat * json) : locals :=
  let (idx, test_case) := it in
  match try_block W code timeout idx test_case st with
  | (st, None) => st
  | (st, Some TimeoutExpired) => append (timeout_entry idx timeout) st
  | (st, Some (Exception e)) => append (error_entry idx (exc_msg e)) st
  end.

Definition invalid_json : verdict :=
  Verdict "error" (Some "Invalid test cases JSON format") 0 0 None.

Definition execute_code_log (W : World) (code test_cases_json : string)
    (timeout : Z) : outcome * list (list string) :=
  match json_loads W test_cases_json with
  | inl e => if is_JSONDecodeError e then (Returns invalid_json, [])
             else (Raises e, [])
  | inr test_cases =>
      match len test_cases with
      | inl e => (Raises e, [])
      | inr total_count =>
          let st := fold_left (iteration W code timeout)
                              (enumerate (iter test_cases)) (Locals [] 0 []) in
          let overall_status :=
            if Nat.eqb (passed_count st) total_count then "passed" else "failed" in
          (Returns (Verdict overall_status None (passed_count st) total_count
                            (Some (results st))),
           launches st)
      end
  end.

Definition execute_code (W : World) (code test_cases_json : string)
    (timeout : Z) : outcome :=
  fst (execute_code_log W code test_cases_json timeout).

(** *** [execute_code_sync] *)

(** The [try] block, lines 136 to 182: a run that ends with another status
    than 0 leaves the locals as they are. *)
Definition try_block_sync (W : World) (code : string)
    (idx : nat) (test_case : json) (st : locals) : locals * option raised :=
  match fill W script_sync code idx test_case with
  | inl e => (st, Some (Exception e))
  | inr test_script =>
      let argv := docker_argv_sync test_script in
      let st := launch argv st in
      match subprocess_run W idx argv 10 with
      | inl r => (st, Some r)
      | inr result =>
          if (returncode result =? 0)%Z then record_stdout W (stdout result) st
          else (st, None)
      end
  end.

(** One iteration: every exception, [TimeoutExpired] too, is an
    [Exception] for the one handler. *)
Definition iteration_sync (W : World) (code : string)
    (st : locals) (it : nat * json) : locals :=
  let (idx, test_case) := it in
  match try_block_sync W code idx test_case st with
  | (st, None) => st
  | (st, Some _) => append (warning_entry idx) st
  end.

(** [any(r.get("status") == "warning" for r in results)] *)
Fixpoint any_warning (results : list json) : exn + bool :=
  match results with
  | [] => inr false
  | r :: rest =>
      match get r "status" JNull with
      | inl e => inl e
      | inr s => if eq s (JStr "warning") then inr true else any_warning rest
      end
  end.

Definition execute_code_sync_log (W : World) (code test_cases_json : string)
    : outcome * list (list string) :=
  match json_loads W test_cases_json with
  | inl e => if is_JSONDecodeError e then (Returns invalid_json, [])
             else (Raises e, [])
  | inr test_cases =>
      match len test_cases with
      | inl e => (Raises e, [])
      | inr total_count =>
          let st := fold_left (iteration_sync W code)
                              (enumerate (iter test_cases)) (Locals [] 0 []) in
          let overall_status :=
            if Nat.eqb (passed_count st) total_count && (0 <? total_count)%nat
            then "passed" else "warning" in
          match any_warning (results st) with
          | inl e => (Raises e, launches st)
          | inr w =>
              (Returns (Verdict overall_status
                          (Some (if negb w then "Docker available"
                                 else "Using mock execution"))
                          (passed_count st) total_count (Some (results st))),
               launches st)
          end
      end
  end.

Definition execute_code_sync (W : World) (code test_cases_json : string) : outcome :=
  fst (execute_code_sync_log W code test_cases_json).

(** *** What one test case adds

    The loop body only ever adds to the locals, so a whole run is the sum
    of what each iteration adds to empty locals. *)

Definition empty : locals := Locals [] 0 [].

Definition merge (st d : locals) : locals :=
  Locals (results st ++ results d) (passed_count d + passed_count st)
         (launches st ++ launches d).

(** The entries one test case puts in [results]. *)
Definition entries (W : World) (code : string) (timeout : Z)
    (it : nat * json) : list json :=
  results (iteration W code timeout empty it).

Definition entries_sync (W : World) (code : string) (it : nat * json) : list json :=
  results (iteration_sync W code empty it).

Definition is_dict (r : json) : Prop := exists kv, r = JObj kv.

(** Docker cannot be used at all: every call of [subprocess.run] raises. *)
Definition cannot_run (W : World) : Prop :=
  forall idx argv timeout, exists r, subprocess_run W idx argv timeout = inl r.


End Judge.

(* ===================================================================== *)
(** ** Worlds to run the judge in

    Concrete library calls for the closed examples.  [dumps] is
    [json.dumps] on values whose strings are plain (no quote, backslash,
    control or non-ASCII character) and whose floats are zeros, infinities
    or NaN.  [loads known] is [json.loads] on the texts that [dumps]
    writes for the values of [known] and on [deep]; every other text the
    examples use is no JSON.  Docker comes in two kinds: [world] lists
    the outcome of the run of each test case; [docker] runs the script of
    each test case as [Harness.run] has it. *)

Module Scenario.
Import Py Judge.

Fixpoint dumps (v : json) {struct v} : string :=
  match v with
  | JNull => "null"
  | JBool true => "true"
  | JBool false => "false"
  | JInt n => str_int n
  | JFloat S754_nan => "NaN"
  | JFloat (S754_infinity false) => "Infinity"
  | JFloat (S754_infinity true) => "-Infinity"
  | JFloat (S754_zero false) => "0.0"
  | JFloat (S754_zero true) => "-0.0"
  | JFloat (S754_finite _ _ _) => "<float>"
  | JStr s => q s
  | JArr xs =>
      "[" ++ String.concat ", "
               ((fix each (xs : list json) : list string :=
                   match xs with
                   | [] => []
                   | x :: r => dumps x :: each r
                   end) xs) ++ "]"
  | JObj kv =>
      "{" ++ String.concat ", "
               ((fix each (kv : list (string * json)) : list string :=
                   match kv with
                   | [] => []
                   | (k, x) :: r => (q k ++ ": " ++ dumps x) :: each r
                   end) kv) ++ "}"
  end.

Fixpoint loads_in (known : list json) (s : string) : exn + json :=
  match known with
  | [] => inl (JSONDecodeError "Expecting value: line 1 column 1 (char 0)")
  | v :: rest => if String.eqb (dumps v) s then inr v else loads_in rest s
  end.

Fixpoint brackets (n : nat) : string :=
  match n with
  | O => EmptyString
  | S m => String (ascii_of_nat 91) (brackets m)
  end.

(** 2000 opening brackets, a text nested too deep for [json.loads]. *)
Definition deep : string := brackets 2000.

Definition RecursionError : exn :=
  Exn "RecursionError"
      "maximum recursion depth exceeded while decoding a JSON array from a unicode string".

Definition loads (known : list json) (s : string) : exn + json :=
  if String.eqb s deep then inl RecursionError else loads_in known s.

(** The record the script of test case [idx] prints when the test passed
    ([execute_code_sync]'s form), and when it failed on [1] against [2]. *)
Definition passed_json (idx : nat) : json :=
  JObj [("status", JStr "passed"); ("test_case", JInt (Z.of_nat idx))].

Definition failed_json (idx : nat) : json :=
  JObj [("status", JStr "failed"); ("test_case", JInt (Z.of_nat idx));
        ("expected", JInt 2); ("got", JInt 1)].

(** The values whose texts the examples with [world] decode. *)
Definition known : list json :=
  [ JArr []; JObj []; JInt 5;
    JArr [JObj []]; JArr [JObj []; JObj []]; JArr [JObj []; JObj []; JObj []];
    passed_json 0; passed_json 1; passed_json 2; failed_json 0 ].

(** The docker executable is missing: [subprocess.run] raises. *)
Definition docker_missing : raised + completed :=
  inl (Exception (Exn "FileNotFoundError"
                      "[Errno 2] No such file or directory: 'docker'")).

(** The run outlives the timeout. *)
Definition hangs : raised + completed := inl TimeoutExpired.

(** The script prints [record] and ends with status 0. *)
Definition prints (record : json) : raised + completed :=
  inr (CompletedProcess 0 (dumps record ++ nl) EmptyString).

(** The run ends with status 0 and has printed nothing. *)
Definition silent : raised + completed :=
  inr (CompletedProcess 0 EmptyString EmptyString).

(** The script dies of an uncaught exception. *)
Definition crashes (stderr : string) : raised + completed :=
  inr (CompletedProcess 1 EmptyString stderr).

Definition code : string := "def solution(): return None".


(** The world where the run of test case [idx] is [runs[idx]], and Docker
    is missing past the end of [runs]. *)
Definition world (runs : list (raised + completed)) : World :=
  {| json_loads := loads known;
     json_dumps := dumps;
     subprocess_run := fun idx _ _ => nth idx runs docker_missing |}.

(** *** A Docker that runs the script *)

(** A submitted text and what running it at module level leaves behind. *)
Record submission : Type := Submission {
  source : string;
  meaning : Harness.code_result
}.

Definition defines (f : Harness.callable) : Harness.code_result :=
  Harness.CodeDefines (Harness.Program (fun _ => None) (Some f)).

(** Calls with other arguments than the function takes raise a
    [TypeError]; its message is not spelled out. *)
Definition bad_call : Harness.returned :=
  Harness.Raise (TypeError "solution() got unexpected arguments").

Definition adder : submission :=
  Submission "def solution(a, b): return a + b"
    (defines (fun args kwargs =>
                match args, kwargs with
                | [JInt a; JInt b], [] => Harness.Return (JInt (a + b))
                | _, _ => bad_call
                end)).

Definition square : submission :=
  Submission "def solution(n): return n * n"
    (defines (fun args kwargs =>
                match args, kwargs with
                | [JInt n], [] => Harness.Return (JInt (n * n))
                | [], [(k, JInt n)] =>
                    if String.eqb k "n" then Harness.Return (JInt (n * n))
                    else bad_call
                | _, _ => bad_call
                end)).

Definition identity : submission :=
  Submission "def solution(x): return x"
    (defines (fun args kwargs =>
                match args, kwargs with
                | [x], [] => Harness.Return x
                | _, _ => bad_call
                end)).

Definition raiser : submission :=
  Submission "def solution(x): raise ValueError('bad')"
    (defines (fun args kwargs =>
                match args, kwargs with
                | [x], [] => Harness.Raise (Exn "ValueError" "bad")
                | _, _ => bad_call
                end)).

Definition returns_none : submission :=
  Submission code
    (defines (fun args kwargs =>
                match args, kwargs with
                | [], [] => Harness.Return JNull
                | _, _ => bad_call
                end)).

(** Raises at module level, before the script reaches its own lines. *)
Definition thrower : submission :=
  Submission "raise RuntimeError('boom')"
    (Harness.CodeRaises (Exn "RuntimeError" "boom")).

(** Leaves the interpreter before the script reaches its own lines. *)
Definition quitter : submission :=
  Submission "import sys; sys.exit(0)" (Harness.CodeExits 0).

(** Leaves the interpreter from inside [solution], on the input [0]. *)
Definition quits_on_zero : submission :=
  Submission ("import sys" ++ nl ++ "def solution(x):" ++ nl
              ++ "    if x == 0: sys.exit(0)" ++ nl ++ "    return x")
    (defines (fun args kwargs =>
                match args, kwargs with
                | [x], [] => if eq x (JInt 0) then Harness.Exit 0
                             else Harness.Return x
                | _, _ => bad_call
                end)).

Definition test_case (input output : json) : json :=
  JObj [("input", input); ("output", output)].

(** The traceback on stderr, cut down to its first and last line: without
    the [File] lines, and without the hint ("Did you mean ...?") that the
    interpreter may add to the message of a [NameError]. *)
Definition traceback (e : exn) : string :=
  "Traceback (most recent call last):" ++ nl
  ++ exc_class e ++ ": " ++ exc_msg e ++ nl.

(** What [subprocess.run] captures of an interpreter that ended so. *)
Definition process (e : Harness.ending) : raised + completed :=
  match e with
  | Harness.Printed record => prints record
  | Harness.Uncaught e => crashes (traceback e)
  | Harness.Exited status => inr (CompletedProcess status EmptyString EmptyString)
  end.

(** How the script of the test case [idx] ends. *)
Definition script_ending (with_output : bool) (c : Harness.code_result)
    (idx : nat) (tc : json) : option Harness.ending :=
  match get tc "input" (JObj []), get tc "output" JNull with
  | inr input, inr output => Some (Harness.run with_output c input output idx)
  | _, _ => None
  end.

Fixpoint printed (with_output : bool) (c : Harness.code_result)
    (its : list (nat * json)) : list json :=
  match its with
  | [] => []
  | (idx, tc) :: rest =>
      match script_ending with_output c idx tc with
      | Some (Harness.Printed record) => record :: printed with_output c rest
      | _ => printed with_output c rest
      end
  end.

(** The world of a working Docker for the suite [cases]: every run is the
    script of its test case; [json.loads] knows the suite and the printed
    records.  [with_output] tells the script of [execute_code] from that of
    [execute_code_sync]. *)
Definition docker (with_output : bool) (c : Harness.code_result)
    (cases : list json) : World :=
  {| json_loads :=
       loads (JArr cases :: printed with_output c (enumerate cases));
     json_dumps := dumps;
     subprocess_run := fun idx _ _ =>
       match nth_error cases idx with
       | Some tc =>
           match script_ending with_output c idx tc with
           | Some e => process e
           | None => docker_missing
           end
       | None => docker_missing
       end |}.

(** [execute_code] and [execute_code_sync] on a working Docker. *)
Definition judge (s : submission) (cases : list json) (timeout : Z) : outcome :=
  execute_code (docker true (meaning s) cases) (source s)
               (dumps (JArr cases)) timeout.

Definition judge_sync (s : submission) (cases : list json) : outcome :=
  execute_code_sync (docker false (meaning s) cases) (source s)
                    (dumps (JArr cases)).

End Scenario.

(* ===================================================================== *)
(** ** src/app.py, the HTTP handlers

    A handler is a function of its request, of the user name that the
    token dependency resolved, and of the database; it returns what the
    handler returns, with the database after the commit, or what it
    raises.  The tables of src/models.py are lists of rows in insertion
    order: [query(T).filter(p).first()] is the first row that satisfies
    [p], [.all()] the rows that do, and [add], [commit], [refresh] put the
    row at the end under the next integer key.  Text columns compare by
    their characters.  The time stamps that the database fills in are not
    part of a row.  The functions of auth.py are arguments of the
    handlers that call them. *)

Module App.
Import Py.

Module User.
Record t : Type := Row {
  id : nat;
  username : string;
  email : string;
  hashed_password : string;
  is_active : bool
}.
End User.

Module Problem.
Record t : Type := Row {
  id : nat;
  title : string;
  description : string;
  difficulty : string;
  test_cases : string;
  creator_id : nat
}.
End Problem.

Module Submission.
Record t : Type := Row {
  id : nat;
  user_id : nat;
  problem_id : nat;
  code : string;
  status : string;
  result : option string
}.
End Submission.

(** The request bodies of src/schemas.py. *)
Module UserCreate.
Record t : Type := Make { username : string; email : string; password : string }.
End UserCreate.

Module ProblemCreate.
Record t : Type := Make {
  title : string;
  description : string;
  difficulty : string;
  test_cases : string
}.
End ProblemCreate.

Module ProblemUpdate.
Record t : Type := Make {
  title : option string;
  description : option string;
  difficulty : option string;
  test_cases : option string
}.
End ProblemUpdate.

Module SubmissionCreate.
Record t : Type := Make { code : string }.
End SubmissionCreate.

Record Db : Type := {
  users : list User.t;
  problems : list Problem.t;
  submissions : list Submission.t
}.

(** The key of the next row: one more than the largest key in the table
    (the app deletes no row). *)
Definition next_id (ids : list nat) : nat := S (list_max ids).

Inductive raised : Type :=
| HTTPException (status_code : nat) (detail : string)
| Unhandled (e : exn).

Definition HTTP_400_BAD_REQUEST : nat := 400.
Definition HTTP_401_UNAUTHORIZED : nat := 401.
Definition HTTP_403_FORBIDDEN : nat := 403.
Definition HTTP_404_NOT_FOUND : nat := 404.

(** *** [get_cors_origins] *)

(** [s.split(sep)] for a separator of one character. *)
Fixpoint split (sep : ascii) (s : string) : list string :=
  match s with
  | EmptyString => [EmptyString]
  | String c r =>
      if Ascii.eqb c sep then EmptyString :: split sep r
      else match split sep r with
           | piece :: rest => String c piece :: rest
           | [] => [String c EmptyString]
           end
  end.

(** [sep.join(l)] *)
Definition join (sep : string) (l : list string) : string := String.concat sep l.

Definition comma : ascii := ascii_of_nat 44.

(** [environ] is the value of the variable CORS_ORIGINS, when it is set. *)
Definition get_cors_origins (environ : option string) : list string :=
  let origins_env :=
    match environ with Some v => v | None => "http://localhost:3000" end in
  map strip (filter (fun origin => truthy (strip origin)) (split comma origins_env)).

(** *** Users *)

Definition by_username (username : string) (u : User.t) : bool :=
  String.eqb (User.username u) username.

(** The first lines of every handler behind the token dependency. *)
Definition current_user (username : string) (db : Db) : raised + User.t :=
  match find (by_username username) (users db) with
  | Some u => inr u
  | None => inl (HTTPException HTTP_401_UNAUTHORIZED "User not found")
  end.

Definition register (get_password_hash : string -> string)
    (user : UserCreate.t) (db : Db) : raised + User.t * Db :=
  match find (by_username (UserCreate.username user)) (users db) with
  | Some _ => inl (HTTPException HTTP_400_BAD_REQUEST "Username already registered")
  | None =>
      match find (fun u => String.eqb (User.email u) (UserCreate.email user))
                 (users db) with
      | Some _ => inl (HTTPException HTTP_400_BAD_REQUEST "Email already registered")
      | None =>
          let hashed_password := get_password_hash (UserCreate.password user) in
          let db_user :=
            User.Row (next_id (map User.id (users db)))
                     (UserCreate.username user) (UserCreate.email user)
                     hashed_password true in
          inr (db_user,
               {| users := users db ++ [db_user];
                  problems := problems db;
                  submissions := submissions db |})
      end
  end.

Record Token : Type := { access_token : string; token_type : string }.

(** [create_access_token data minutes] stands for
    [create_access_token(data=data, expires_delta=timedelta(minutes=minutes))]. *)
Definition login (verify_password : string -> string -> bool)
    (create_access_token : list (string * string) -> Z -> string)
    (ACCESS_TOKEN_EXPIRE_MINUTES : Z)
    (form_username form_password : string) (db : Db) : raised + Token :=
  match find (by_username form_username) (users db) with
  | Some user =>
      if verify_password form_password (User.hashed_password user) then
        inr {| access_token :=
                 create_access_token [("sub", User.username user)]
                                     ACCESS_TOKEN_EXPIRE_MINUTES;
               token_type := "bearer" |}
      else inl (HTTPException HTTP_401_UNAUTHORIZED "Incorrect username or password")
  | None => inl (HTTPException HTTP_401_UNAUTHORIZED "Incorrect username or password")
  end.

Definition get_current_user_info (username : string) (db : Db) : raised + User.t :=
  current_user username db.

(** *** Problems *)

Definition list_problems (db : Db) : list Problem.t := problems db.

Definition by_problem_id (problem_id : nat) (p : Problem.t) : bool :=
  Nat.eqb (Problem.id p) problem_id.

Definition get_problem (problem_id : nat) (db : Db) : raised + Problem.t :=
  match find (by_problem_id problem_id) (problems db) with
  | Some problem => inr problem
  | None => inl (HTTPException HTTP_404_NOT_FOUND "Problem not found")
  end.

Definition create_problem (W : Judge.World) (problem : ProblemCreate.t)
    (username : string) (db : Db) : raised + Problem.t * Db :=
  match current_user username db with
  | inl r => inl r
  | inr user =>
      match Judge.json_loads W (ProblemCreate.test_cases problem) with
      | inl e =>
          if Judge.is_JSONDecodeError e then
            inl (HTTPException HTTP_400_BAD_REQUEST "test_cases must be valid JSON")
          else inl (Unhandled e)
      | inr _ =>
          let db_problem :=
            Problem.Row (next_id (map Problem.id (problems db)))
                        (ProblemCreate.title problem)
                        (ProblemCreate.description problem)
                        (ProblemCreate.difficulty problem)
                        (ProblemCreate.test_cases problem)
                        (User.id user) in
          inr (db_problem,
               {| users := users db;
                  problems := problems db ++ [db_problem];
                  submissions := submissions db |})
      end
  end.

(** [if field:] on an optional [str]: set and not empty. *)
Definition given (field : option string) : bool :=
  match field with
  | Some s => truthy s
  | None => false
  end.

(** [if field: problem.column = field] *)
Definition updated (field : option string) (old : string) : string :=
  match field with
  | Some s => if truthy s then s else old
  | None => old
  end.

(** The row [problem] after the four assignments. *)
Definition apply_update (problem_update : ProblemUpdate.t) (problem : Problem.t)
    : Problem.t :=
  Problem.Row (Problem.id problem)
              (updated (ProblemUpdate.title problem_update) (Problem.title problem))
              (updated (ProblemUpdate.description problem_update)
                       (Problem.description problem))
              (updated (ProblemUpdate.difficulty problem_update)
                       (Problem.difficulty problem))
              (updated (ProblemUpdate.test_cases problem_update)
                       (Problem.test_cases problem))
              (Problem.creator_id problem).

(** The table after the commit: the row that [first()] returned, the first
    one with that key, is the one that changed. *)
Fixpoint replace_first (problem_id : nat) (row : Problem.t) (rows : list Problem.t)
    : list Problem.t :=
  match rows with
  | [] => []
  | p :: rest =>
      if by_problem_id problem_id p then row :: rest
      else p :: replace_first problem_id row rest
  end.

(** Lines 253 to 260: what the check of the new test cases raises, if
    anything.  Only [json.JSONDecodeError] is turned into a 400. *)
Definition validate (W : Judge.World) (field : option string) : option raised :=
  match field with
  | Some text =>
      if truthy text then
        match Judge.json_loads W text with
        | inl e =>
            Some (if Judge.is_JSONDecodeError e then
                    HTTPException HTTP_400_BAD_REQUEST
                                  "test_cases must be valid JSON"
                  else Unhandled e)
        | inr _ => None
        end
      else None
  | None => None
  end.

Definition update_problem (W : Judge.World) (problem_id : nat)
    (problem_update : ProblemUpdate.t) (username : string) (db : Db)
    : raised + Problem.t * Db :=
  match current_user username db with
  | inl r => inl r
  | inr user =>
      match find (by_problem_id problem_id) (problems db) with
      | None => inl (HTTPException HTTP_404_NOT_FOUND "Problem not found")
      | Some problem =>
          if negb (Nat.eqb (Problem.creator_id problem) (User.id user)) then
            inl (HTTPException HTTP_403_FORBIDDEN
                               "Only creator can update this problem")
          else
            match validate W (ProblemUpdate.test_cases problem_update) with
            | Some r => inl r
            | None =>
                let problem := apply_update problem_update problem in
                inr (problem,
                     {| users := users db;
                        problems := replace_first problem_id problem (problems db);
                        submissions := submissions db |})
            end
      end
  end.

(** *** Submissions *)

(** The dict that the judge returns, its keys in the order of the dict
    displays of src/judge.py. *)
Definition verdict_json (v : Judge.verdict) : json :=
  JObj ([("status", JStr (Judge.status v))]
        ++ match Judge.message v with
           | Some m => [("message", JStr m)]
           | None => []
           end
        ++ [("passed", JInt (Z.of_nat (Judge.passed v)));
            ("total", JInt (Z.of_nat (Judge.total v)))]
        ++ match Judge.test_results v with
           | Some rs => [("test_results", JArr rs)]
           | None => []
           end).

(** The handler and the [docker run] commands it had called. *)
Definition submit_solution (W : Judge.World) (problem_id : nat)
    (submission : SubmissionCreate.t) (username : string) (db : Db)
    : (raised + Submission.t * Db) * list (list string) :=
  match current_user username db with
  | inl r => (inl r, [])
  | inr user =>
      match find (by_problem_id problem_id) (problems db) with
      | None => (inl (HTTPException HTTP_404_NOT_FOUND "Problem not found"), [])
      | Some problem =>
          if negb (truthy (strip (SubmissionCreate.code submission))) then
            (inl (HTTPException HTTP_400_BAD_REQUEST "Code cannot be empty"), [])
          else
            match Judge.execute_code_sync_log W (SubmissionCreate.code submission)
                                            (Problem.test_cases problem) with
            | (Judge.Raises e, log) => (inl (Unhandled e), log)
            | (Judge.Returns execution_result, log) =>
                let db_submission :=
                  Submission.Row (next_id (map Submission.id (submissions db)))
                                 (User.id user) problem_id
                                 (SubmissionCreate.code submission)
                                 (Judge.status execution_result)
                                 (Some (Judge.json_dumps W
                                          (verdict_json execution_result))) in
                (inr (db_submission,
                      {| users := users db;
                         problems := problems db;
                         submissions := submissions db ++ [db_submission] |}),
                 log)
            end
      end
  end.

Definition list_submissions (username : string) (db : Db)
    : raised + list Submission.t :=
  match current_user username db with
  | inl r => inl r
  | inr user =>
      inr (filter (fun s => Nat.eqb (Submission.user_id s) (User.id user))
                  (submissions db))
  end.

Definition get_submission (submission_id : nat) (username : string) (db : Db)
    : raised + Submission.t :=
  match current_user username db with
  | inl r => inl r
  | inr user =>
      match find (fun s => Nat.eqb (Submission.id s) submission_id)
                 (submissions db) with
      | None => inl (HTTPException HTTP_404_NOT_FOUND "Submission not found")
      | Some submission =>
          if negb (Nat.eqb (Submission.user_id submission) (User.id user)) then
            inl (HTTPException HTTP_403_FORBIDDEN
                               "You can only view your own submissions")
          else inr submission
      end
  end.

Definition list_problem_submissions (problem_id : nat) (username : string)
    (db : Db) : raised + list Submission.t :=
  match current_user username db with
  | inl r => inl r
  | inr user =>
      inr (filter (fun s => Nat.eqb (Submission.problem_id s) problem_id
                            && Nat.eqb (Submission.user_id s) (User.id user))
                  (submissions db))
  end.

(** *** What the properties speak of *)

(** A text that [json.loads] takes. *)
Definition decodes (W : Judge.World) (text : string) : Prop :=
  exists v, Judge.json_loads W text = inr v.

(** Every stored problem has test cases that decode. *)
Definition problems_decode (W : Judge.World) (db : Db) : Prop :=
  Forall (fun p => decodes W (Problem.test_cases p)) (problems db).

(** No two users share a name or an address. *)
Definition users_distinct (db : Db) : Prop :=
  NoDup (map User.username (users db)) /\ NoDup (map User.email (users db)).

Definition empty_db : Db := {| users := []; problems := []; submissions := [] |}.

End App.

(* ===================================================================== *)
(** ** Notions the further properties speak of *)

Module Notions.
Import Py.

(** [r.get("status") == s] on an entry of [test_results]. *)
Definition has_status (s : string) (r : json) : bool :=
  match get r "status" JNull with
  | inr x => eq x (JStr s)
  | inl _ => false
  end.

Definition is_dictb (v : json) : bool :=
  match v with JObj _ => true | _ => false end.

(** The characters of a string. *)
Fixpoint letters (s : string) : list ascii :=
  match s with
  | EmptyString => []
  | String c r => c :: letters r
  end.

(** An origin as [get_cors_origins] returns them: not empty, nothing to
    strip, no comma. *)
Definition clean_origin (o : string) : Prop :=
  o <> EmptyString /\ strip o = o /\ ~ In App.comma (letters o).

(** Every character of the text is an ASCII character. *)
Definition is_ascii (s : string) : bool :=
  forallb (fun c => (nat_of_ascii c <? 128)%nat) (letters s).

End Notions.

(* ===================================================================== *)
(** ** A database and an auth library for the closed examples *)

Module Sample.
Import Py.

(** Stand-ins for [get_password_hash], [verify_password] and
    [create_access_token] of auth.py. *)
Definition get_password_hash (password : string) : string := "hash:" ++ password.

Definition verify_password (password hashed : string) : bool :=
  String.eqb hashed (get_password_hash password).

Definition create_access_token (data : list (string * string)) (minutes : Z)
    : string :=
  match data with
  | (_, sub) :: _ => "token:" ++ sub
  | [] => "token:"
  end.

Definition ada : App.User.t :=
  App.User.Row 1 "ada" "ada@example.org" (get_password_hash "lovelace") true.

Definition bob : App.User.t :=
  App.User.Row 2 "bob" "bob@example.org" (get_password_hash "builder") true.

(** A problem of ada with one test case. *)
Definition sum : App.Problem.t :=
  App.Problem.Row 1 "Sum" "Add two numbers" "easy" "[{}]" 1.

Definition db : App.Db :=
  {| App.users := [ada; bob]; App.problems := [sum]; App.submissions := [] |}.

(** Docker runs the one test case and it passes. *)
Definition world : Judge.World :=
  Scenario.world [Scenario.prints (Scenario.passed_json 0)].

Definition solution : App.SubmissionCreate.t :=
  App.SubmissionCreate.Make Scenario.code.

(** The row that [submit_solution] stores for ada's solution. *)
Definition stored : App.Submission.t :=
  App.Submission.Row 1 1 1 Scenario.code "passed"
    (Some (Scenario.dumps
             (App.verdict_json
                (Judge.Verdict "passed" (Some "Docker available") 1 1
                   (Some [Scenario.passed_json 0]))))).

Definition db_after : App.Db :=
  {| App.users := [ada; bob]; App.problems := [sum];
     App.submissions := [stored] |}.

End Sample.


(* ===================================================================== *)
(** * Properties *)

Import Py Judge Notions.
Open Scope list_scope.

(** ** The loop only adds to its locals *)

Lemma merge_empty_r st : merge st empty = st.
Proof.
  destruct st as [r p l]; unfold merge, empty; simpl.
  now rewrite !app_nil_r.
Qed.

Lemma merge_empty_l d : merge empty d = d.
Proof.
  destruct d as [r p l]; unfold merge, empty; simpl.
  now rewrite Nat.add_0_r.
Qed.

Lemma merge_assoc a b c : merge (merge a b) c = merge a (merge b c).
Proof.
  unfold merge; simpl. rewrite !app_assoc. f_equal. lia.
Qed.

Lemma merge_append st d r : merge st (append r d) = append r (merge st d).
Proof. unfold merge, append; simpl. now rewrite app_assoc. Qed.

Lemma merge_launch st d a : merge st (launch a d) = launch a (merge st d).
Proof. unfold merge, launch; simpl. now rewrite app_assoc. Qed.

Lemma merge_count_passed st d :
  merge st (count_passed d) = count_passed (merge st d).
Proof. reflexivity. Qed.

Ltac to_merge st :=
  rewrite <- (merge_empty_r st) at 1;
  repeat first [ rewrite <- merge_append | rewrite <- merge_launch
               | rewrite <- merge_count_passed ].

Lemma record_stdout_frame W out st :
  record_stdout W out st =
  (merge st (fst (record_stdout W out empty)), snd (record_stdout W out empty)).
Proof.
  unfold record_stdout.
  destruct (truthy (strip out)); [ | now rewrite merge_empty_r ].
  destruct (json_loads W (strip out)) as [msg | test_result];
    [ now rewrite merge_empty_r | ].
  destruct (get test_result "status" JNull) as [e | s];
    [ now rewrite merge_empty_r | ].
  destruct (eq s (JStr "passed")); simpl; now to_merge st.
Qed.

Lemma try_block_frame W code timeout idx tc st :
  try_block W code timeout idx tc st =
  (merge st (fst (try_block W code timeout idx tc empty)),
   snd (try_block W code timeout idx tc empty)).
Proof.
  unfold try_block.
  destruct (fill W script code idx tc) as [e | s];
    [ now rewrite merge_empty_r | ].
  destruct (subprocess_run W idx (docker_argv s) timeout) as [r | result];
    simpl; [ now to_merge st | ].
  destruct (returncode result =? 0)%Z.
  - rewrite (record_stdout_frame W _ (launch _ st)).
    rewrite (record_stdout_frame W _ (launch _ empty)). simpl.
    rewrite <- merge_assoc. f_equal. f_equal. now to_merge st.
  - simpl. now to_merge st.
Qed.

Lemma try_block_sync_frame W code idx tc st :
  try_block_sync W code idx tc st =
  (merge st (fst (try_block_sync W code idx tc empty)),
   snd (try_block_sync W code idx tc empty)).
Proof.
  unfold try_block_sync.
  destruct (fill W script_sync code idx tc) as [e | s];
    [ now rewrite merge_empty_r | ].
  destruct (subprocess_run W idx (docker_argv_sync s) 10) as [r | result];
    simpl; [ now to_merge st | ].
  destruct (returncode result =? 0)%Z.
  - rewrite (record_stdout_frame W _ (launch _ st)).
    rewrite (record_stdout_frame W _ (launch _ empty)). simpl.
    rewrite <- merge_assoc. f_equal. f_equal. now to_merge st.
  - simpl. now to_merge st.
Qed.

Lemma iteration_frame W code timeout st it :
  iteration W code timeout st it = merge st (iteration W code timeout empty it).
Proof.
  destruct it as [idx tc]. unfold iteration.
  rewrite (try_block_frame W code timeout idx tc st).
  destruct (try_block W code timeout idx tc empty) as [d [[ | e] | ]]; simpl;
    now rewrite ?merge_append.
Qed.

Lemma iteration_sync_frame W code st it :
  iteration_sync W code st it = merge st (iteration_sync W code empty it).
Proof.
  destruct it as [idx tc]. unfold iteration_sync.
  rewrite (try_block_sync_frame W code idx tc st).
  destruct (try_block_sync W code idx tc empty) as [d [r | ]]; simpl;
    now rewrite ?merge_append.
Qed.

(** A loop whose body only adds is the sum of what its iterations add. *)
Section Loop.

Variable step : locals -> nat * json -> locals.
Hypothesis step_frame : forall st it, step st it = merge st (step empty it).

Lemma fold_frame l st :
  fold_left step l st = merge st (fold_left step l empty).
Proof.
  revert st. induction l as [ | it l IH]; intros st; simpl.
  - now rewrite merge_empty_r.
  - rewrite (IH (step st it)), (IH (step empty it)).
    now rewrite (step_frame st it), merge_assoc.
Qed.

Lemma fold_cons it l :
  fold_left step (it :: l) empty = merge (step empty it) (fold_left step l empty).
Proof. simpl. apply fold_frame. Qed.

Lemma fold_results l :
  results (fold_left step l empty) = flat_map (fun it => results (step empty it)) l.
Proof.
  induction l as [ | it l IH]; [ reflexivity | ].
  rewrite fold_cons. simpl. now rewrite IH.
Qed.

Lemma fold_launches l :
  launches (fold_left step l empty) = flat_map (fun it => launches (step empty it)) l.
Proof.
  induction l as [ | it l IH]; [ reflexivity | ].
  rewrite fold_cons. simpl. now rewrite IH.
Qed.

Lemma fold_passed_count l :
  passed_count (fold_left step l empty) =
  list_sum (map (fun it => passed_count (step empty it)) l).
Proof.
  induction l as [ | it l IH]; [ reflexivity | ].
  rewrite fold_cons. simpl. rewrite IH. lia.
Qed.

End Loop.

(** ** The overall status *)

(** C1, at the input where [execute_code] breaks it: on a suite with no
    test case [execute_code] compares [passed_count] with [total_count]
    and nothing else, so it answers "passed" with a total of 0.  (The
    sibling [execute_code_sync] asks for [total_count > 0] as well, see
    [sync_passed_iff].) *)
Theorem execute_code_empty_suite_passed W code text timeout :
  json_loads W text = inr (JArr []) ->
  execute_code W code text timeout = Returns (Verdict "passed" None 0 0 (Some [])).
Proof.
  intros H. unfold execute_code, execute_code_log. now rewrite H.
Qed.

Lemma execute_code_empty_suite_passed_witness :
  execute_code (Scenario.world []) Scenario.code "[]" 10
  = Returns (Verdict "passed" None 0 0 (Some [])).
Proof.
  apply execute_code_empty_suite_passed. reflexivity.
Defined.

(** Every verdict of [execute_code_sync] is "passed" exactly when there is
    a test case and all of them passed. *)
Theorem sync_passed_iff W code text v :
  execute_code_sync W code text = Returns v ->
  status v = "passed" <-> (0 < total v /\ passed v = total v).
Proof.
  unfold execute_code_sync, execute_code_sync_log.
  destruct (json_loads W text) as [e | test_cases]; simpl.
  - destruct (is_JSONDecodeError e); [ | discriminate ].
    intros [= <-]; simpl. split; [ discriminate | lia ].
  - destruct (len test_cases) as [e | n]; simpl; [ discriminate | ].
    destruct (any_warning _) as [e | w]; simpl; [ discriminate | ].
    intros [= <-]; simpl.
    destruct (Nat.eqb_spec
                (passed_count (fold_left (iteration_sync W code)
                                 (enumerate (iter test_cases)) (Locals [] 0 []))) n)
      as [Heq | Hne]; destruct (Nat.ltb_spec 0 n) as [Hlt | Hge]; simpl;
      split; try discriminate; try tauto; lia.
Qed.

Lemma sync_passed_iff_witness :
  status (Verdict "warning" (Some "Docker available") 0 0 (Some [])) = "passed"
  <-> (0 < 0 /\ 0 = 0).
Proof.
  apply (sync_passed_iff (Scenario.world []) Scenario.code "[]"
           (Verdict "warning" (Some "Docker available") 0 0 (Some []))).
  reflexivity.
Defined.

(** ** One entry per test case? *)

(** C2, at inputs where the code breaks it.  The suite is [[{}]], one
    test case.  A submitted code that leaves the interpreter with
    [sys.exit(0)] makes a run with status 0 and an empty stdout, which
    falls through [if output:] with no [else]; in [execute_code_sync] a
    submitted code that raises makes a run with status 1, which falls
    through [if result.returncode == 0:] with no [else].  The test
    case then has no entry at all: [total] is 1 and [test_results] is
    empty.  ([execute_code] does have the second [else], last line.) *)
Theorem silent_run_leaves_no_entry timeout :
  Scenario.dumps (JArr [JObj []]) = "[{}]"
  /\ Scenario.judge Scenario.quitter [JObj []] timeout
     = Returns (Verdict "failed" None 0 1 (Some []))
  /\ Scenario.judge_sync Scenario.quitter [JObj []]
     = Returns (Verdict "warning" (Some "Docker available") 0 1 (Some []))
  /\ Scenario.judge_sync Scenario.thrower [JObj []]
     = Returns (Verdict "warning" (Some "Docker available") 0 1 (Some []))
  /\ Scenario.judge Scenario.thrower [JObj []] timeout
     = Returns (Verdict "failed" None 0 1
                  (Some [error_entry 0 (Scenario.traceback
                                          (Exn "RuntimeError" "boom"))])).
Proof. repeat split. Qed.

(** C3, at an input where the code breaks it: [solution] leaves the
    interpreter on the input 0, so the run of test case 0 leaves no entry
    (see [silent_run_leaves_no_entry]) and the record of test case 1
    stands first in [test_results]. *)
Theorem entry_index_shifts timeout :
  let cases := [Scenario.test_case (JInt 0) (JInt 0);
                Scenario.test_case (JInt 1) (JInt 1)] in
  let record := Harness.passed_record true 1 (JInt 1) in
  Scenario.judge Scenario.quits_on_zero cases timeout
    = Returns (Verdict "failed" None 1 2 (Some [record]))
  /\ nth_error [record] 0 = Some record
  /\ get record "test_case" JNull = inr (JInt 1).
Proof. repeat split. Qed.

(** ** A suite that does not decode *)

(** C4 as the code has it: when [json.loads] raises [JSONDecodeError] on
    the text, both functions return the terminal verdict, status "error"
    with 0 of 0 and no list of results, and [subprocess.run] is never
    called. *)
Theorem decode_failure_is_terminal W code text timeout msg :
  json_loads W text = inl (JSONDecodeError msg) ->
  let terminal :=
    Verdict "error" (Some "Invalid test cases JSON format") 0 0 None in
  execute_code_log W code text timeout = (Returns terminal, [])
  /\ execute_code_sync_log W code text = (Returns terminal, [])
  /\ status terminal = "error"
  /\ passed terminal = 0 /\ total terminal = 0.
Proof.
  intros H. unfold execute_code_log, execute_code_sync_log. rewrite H.
  repeat split.
Qed.

Lemma decode_failure_is_terminal_witness :
  let terminal :=
    Verdict "error" (Some "Invalid test cases JSON format") 0 0 None in
  execute_code_log (Scenario.world []) Scenario.code "not json" 10
    = (Returns terminal, [])
  /\ execute_code_sync_log (Scenario.world []) Scenario.code "not json"
    = (Returns terminal, [])
  /\ status terminal = "error"
  /\ passed terminal = 0 /\ total terminal = 0.
Proof.
  apply (decode_failure_is_terminal (Scenario.world []) Scenario.code
           "not json" 10 "Expecting value: line 1 column 1 (char 0)").
  reflexivity.
Defined.

(** C4 as stated fails: the text [{}] decodes to a dict, not a list, and
    the verdict is "passed" in [execute_code] and "warning" in
    [execute_code_sync]; the text [5] decodes to an int and [len] raises
    out of both functions; and on 2000 opening brackets [json.loads] fails
    with [RecursionError], which [except json.JSONDecodeError] does not
    catch, so both functions raise it. *)
Lemma non_array_suite_not_rejected :
  json_loads (Scenario.world []) "{}" = inr (JObj [])
  /\ type_of (JObj []) <> TList
  /\ execute_code (Scenario.world []) Scenario.code "{}" 10
     = Returns (Verdict "passed" None 0 0 (Some []))
  /\ execute_code_sync (Scenario.world []) Scenario.code "{}"
     = Returns (Verdict "warning" (Some "Docker available") 0 0 (Some []))
  /\ json_loads (Scenario.world []) "5" = inr (JInt 5)
  /\ execute_code (Scenario.world []) Scenario.code "5" 10
     = Raises (TypeError "object of type 'int' has no len()")
  /\ execute_code_sync (Scenario.world []) Scenario.code "5"
     = Raises (TypeError "object of type 'int' has no len()")
  /\ json_loads (Scenario.world []) Scenario.deep
     = inl Scenario.RecursionError
  /\ execute_code (Scenario.world []) Scenario.code Scenario.deep 10
     = Raises Scenario.RecursionError
  /\ execute_code_sync (Scenario.world []) Scenario.code Scenario.deep
     = Raises Scenario.RecursionError.
Proof. repeat split; try discriminate; vm_compute; reflexivity. Qed.

(** ** The script: binding the input, reading the expected output *)

(** C5, where the code breaks it.  The input of a test case is pasted
    into the script as JSON text, so the scalars [true], [false] and
    [null] arrive as names.  Unless the submitted code binds them, the
    line [test_input = ...] raises [NameError] outside the [try] block:
    the script dies before the [if]/[elif]/[else] chain, and [solution],
    which that chain would call with the value as its only argument, is
    never called.  The same holds for a list or a dict that holds such a
    value. *)
Theorem scalar_input_never_bound (with_output : bool) (p : Harness.program)
    (output : json) (idx : nat) (key : string) :
  Harness.globals p "true" = None ->
  Harness.globals p "false" = None ->
  Harness.globals p "null" = None ->
  let dies input x :=
    Harness.run with_output (Harness.CodeDefines p) input output idx
    = Harness.Uncaught (Exn "NameError" ("name '" ++ x ++ "' is not defined")) in
  (dies (JBool true) "true" /\ dies (JBool false) "false" /\ dies JNull "null")
  /\ (dies (JArr [JBool true]) "true" /\ dies (JObj [(key, JNull)]) "null")
  /\ Forall (fun v => type_of v <> TDict /\ type_of v <> TList)
            [JBool true; JBool false; JNull].
Proof.
  intros Ht Hfalse Hn dies. unfold dies. split; [ | split ].
  - cbn [Harness.run Harness.literal]. unfold Harness.name.
    rewrite Ht, Hfalse, Hn. repeat split.
  - cbn [Harness.run Harness.literal]. unfold Harness.name.
    rewrite Ht, Hn. repeat split.
  - repeat constructor; discriminate.
Qed.

Lemma scalar_input_never_bound_witness :
  let f : Harness.callable :=
    fun args kwargs =>
      match args, kwargs with
      | [x], [] => Harness.Return x
      | _, _ => Scenario.bad_call
      end in
  let p := Harness.Program (fun _ => None) (Some f) in
  let dies input x :=
    Harness.run true (Harness.CodeDefines p) input (JInt 1) 0
    = Harness.Uncaught (Exn "NameError" ("name '" ++ x ++ "' is not defined")) in
  (dies (JBool true) "true" /\ dies (JBool false) "false" /\ dies JNull "null")
  /\ (dies (JArr [JBool true]) "true" /\ dies (JObj [("x", JNull)]) "null")
  /\ Forall (fun v => type_of v <> TDict /\ type_of v <> TList)
            [JBool true; JBool false; JNull].
Proof.
  intros f p.
  apply (scalar_input_never_bound true p (JInt 1) 0 "x"); reflexivity.
Defined.

(** The same from end to end: [def solution(x): return x] on the input
    [true] with the expected output [1], which [True] equals.  The test
    is not graded: its entry is the traceback of the [NameError]. *)
Lemma scalar_input_verdict :
  let cases := [JObj [("input", JBool true); ("output", JInt 1)]] in
  eq (JBool true) (JInt 1) = true
  /\ fill (Scenario.docker true (Scenario.meaning Scenario.identity) cases)
          script (Scenario.source Scenario.identity) 0
          (JObj [("input", JBool true); ("output", JInt 1)])
     = inr (script "def solution(x): return x" "true" "1" 0)
  /\ Scenario.judge Scenario.identity cases 10
     = Returns (Verdict "failed" None 0 1
                  (Some [JObj [("status", JStr "error"); ("test_case", JInt 0);
                               ("error",
                                JStr (Scenario.traceback
                                        (Exn "NameError"
                                             "name 'true' is not defined")))]])).
Proof. repeat split. Qed.

(** C6, where the code breaks it.  On the host a test case without [input]
    and [output] gets [{}] and [None], and [{}] reaches [solution] as a
    call without arguments.  But [None] is pasted into the script as the
    text [null], which Python reads as a name: unless the submitted code
    binds it, the line [expected_output = null] raises [NameError] outside
    the [try] block and the script dies before any comparison. *)
Theorem null_expected_output_crashes (with_output : bool) (p : Harness.program)
    (kv : list (string * json)) (idx : nat) :
  lookup kv "input" = None ->
  lookup kv "output" = None ->
  Harness.globals p "null" = None ->
  get (JObj kv) "input" (JObj []) = inr (JObj [])
  /\ get (JObj kv) "output" JNull = inr JNull
  /\ Harness.literal (Harness.globals p) (JObj []) = inr (JObj [])
  /\ Harness.bind_input (JObj []) = Harness.Keyword []
  /\ Harness.run with_output (Harness.CodeDefines p) (JObj []) JNull idx
     = Harness.Uncaught (NameError "null").
Proof.
  intros Hin Hout Hnull. simpl. rewrite Hin, Hout.
  unfold Harness.name. rewrite Hnull. repeat split.
Qed.

Lemma null_expected_output_crashes_witness :
  let p := Harness.Program (fun _ => None) (Some (fun _ _ => Harness.Return JNull)) in
  get (JObj []) "input" (JObj []) = inr (JObj [])
  /\ get (JObj []) "output" JNull = inr JNull
  /\ Harness.literal (Harness.globals p) (JObj []) = inr (JObj [])
  /\ Harness.bind_input (JObj []) = Harness.Keyword []
  /\ Harness.run true (Harness.CodeDefines p) (JObj []) JNull 0
     = Harness.Uncaught (NameError "null").
Proof.
  intros p. apply (null_expected_output_crashes true p [] 0); reflexivity.
Defined.

(** The same from end to end: the suite [[{}]] against
    [def solution(): return None], and a test that expects [true]. *)
Lemma null_expected_output_verdict :
  fill (Scenario.world []) script Scenario.code 0 (JObj [])
    = inr (script Scenario.code "{}" "null" 0)
  /\ Scenario.judge Scenario.returns_none [JObj []] 10
     = Returns (Verdict "failed" None 0 1
                  (Some [error_entry 0 (Scenario.traceback (NameError "null"))]))
  /\ Scenario.judge_sync Scenario.returns_none [JObj []]
     = Returns (Verdict "warning" (Some "Docker available") 0 1 (Some []))
  /\ Scenario.judge Scenario.identity
                    [Scenario.test_case (JBool true) (JBool true)] 10
     = Returns (Verdict "failed" None 0 1
                  (Some [error_entry 0 (Scenario.traceback (NameError "true"))])).
Proof. repeat split. Qed.

(** The examples of the specification that a working Docker grades:
    positional and keyword binding, a wrong answer, an exception in
    [solution] next to a test that passes. *)
Lemma graded_examples :
  Scenario.judge Scenario.adder
                 [Scenario.test_case (JArr [JInt 2; JInt 3]) (JInt 5)] 10
    = Returns (Verdict "passed" None 1 1
                 (Some [Harness.passed_record true 0 (JInt 5)]))
  /\ Scenario.judge Scenario.square
                    [Scenario.test_case (JObj [("n", JInt 4)]) (JInt 16)] 10
     = Returns (Verdict "passed" None 1 1
                  (Some [Harness.passed_record true 0 (JInt 16)]))
  /\ Scenario.judge Scenario.identity
                    [Scenario.test_case (JArr [JInt 1]) (JInt 99)] 10
     = Returns (Verdict "failed" None 0 1
                  (Some [Harness.failed_record 0 (JInt 99) (JInt 1)]))
  /\ Scenario.judge Scenario.raiser
                    [Scenario.test_case (JInt 1) (JInt 1)] 10
     = Returns (Verdict "failed" None 0 1
                  (Some [Harness.error_record 0 "bad"])).
Proof. repeat split. Qed.

(** ** What one test case adds, and what it depends on *)




Lemma enumerate_from_indices n l :
  map fst (enumerate_from n l) = seq n (List.length l).
Proof.
  revert n. induction l as [ | x l IH]; intros n; simpl; [ | rewrite IH ];
    reflexivity.
Qed.

Lemma enumerate_from_length n l :
  List.length (enumerate_from n l) = List.length l.
Proof.
  revert n. induction l as [ | x l IH]; intros n; simpl; [ | rewrite IH ];
    reflexivity.
Qed.





(** On a suite that is a list both functions return, and what they return
    is read off the loop. *)
Lemma execute_code_log_list W code text timeout cases :
  json_loads W text = inr (JArr cases) ->
  execute_code_log W code text timeout
  = let st := fold_left (iteration W code timeout) (enumerate cases) empty in
    (Returns (Verdict (if Nat.eqb (passed_count st) (List.length cases)
                       then "passed" else "failed")
                      None (passed_count st) (List.length cases)
                      (Some (results st))),
     launches st).
Proof. intros H. unfold execute_code_log. now rewrite H. Qed.

Lemma get_is_dict r key default x : get r key default = inr x -> is_dict r.
Proof. destruct r; simpl; try discriminate. intros _. now eexists. Qed.

Lemma record_stdout_dicts W out :
  Forall is_dict (results (fst (record_stdout W out empty))).
Proof.
  unfold record_stdout.
  destruct (truthy (strip out)); [ | constructor ].
  destruct (json_loads W (strip out)) as [msg | test_result]; [ constructor | ].
  destruct (get test_result "status" JNull) as [e | s] eqn:G; [ constructor | ].
  apply get_is_dict in G.
  destruct (eq s (JStr "passed")); simpl; repeat constructor; exact G.
Qed.

Lemma entries_sync_dicts W code it : Forall is_dict (entries_sync W code it).
Proof.
  destruct it as [idx tc]. unfold entries_sync, iteration_sync, try_block_sync.
  assert (Hw : is_dict (warning_entry idx)) by (now eexists).
  destruct (fill W script_sync code idx tc) as [e | s];
    [ simpl; repeat constructor; exact Hw | ].
  destruct (subprocess_run W idx (docker_argv_sync s) 10) as [r | result];
    [ simpl; repeat constructor; exact Hw | ].
  destruct (returncode result =? 0)%Z; [ | constructor ].
  rewrite record_stdout_frame.
  pose proof (record_stdout_dicts W (stdout result)) as D.
  destruct (record_stdout W (stdout result) empty) as [d [r | ]]; simpl in *.
  - apply Forall_app. split; [ exact D | repeat constructor; exact Hw ].
  - exact D.
Qed.

Lemma any_warning_dicts rs : Forall is_dict rs -> exists w, any_warning rs = inr w.
Proof.
  induction 1 as [ | r rs [kv ->] _ IH]; simpl; [ now eexists | ].
  destruct (eq _ _); [ now eexists | exact IH ].
Qed.

Lemma execute_code_sync_log_sized W code text test_cases n :
  json_loads W text = inr test_cases ->
  len test_cases = inr n ->
  exists w,
    any_warning (flat_map (entries_sync W code) (enumerate (iter test_cases)))
    = inr w
    /\ execute_code_sync_log W code text
       = let st := fold_left (iteration_sync W code)
                             (enumerate (iter test_cases)) empty in
         (Returns (Verdict (if Nat.eqb (passed_count st) n && (0 <? n)%nat
                            then "passed" else "warning")
                           (Some (if negb w then "Docker available"
                                  else "Using mock execution"))
                           (passed_count st) n (Some (results st))),
          launches st).
Proof.
  intros H Hn.
  destruct (any_warning_dicts
              (flat_map (entries_sync W code) (enumerate (iter test_cases))))
    as [w Hw].
  { apply Forall_flat_map, Forall_forall. intros it _. apply entries_sync_dicts. }
  exists w. split; [ exact Hw | ].
  unfold execute_code_sync_log. rewrite H, Hn. simpl.
  fold empty.
  rewrite (fold_results _ (iteration_sync_frame W code)).
  unfold entries_sync in Hw. now rewrite Hw.
Qed.

Lemma execute_code_sync_log_list W code text cases :
  json_loads W text = inr (JArr cases) ->
  exists w,
    any_warning (flat_map (entries_sync W code) (enumerate cases)) = inr w
    /\ execute_code_sync_log W code text
       = let st := fold_left (iteration_sync W code) (enumerate cases) empty in
         (Returns (Verdict (if Nat.eqb (passed_count st) (List.length cases)
                               && (0 <? List.length cases)%nat
                            then "passed" else "warning")
                           (Some (if negb w then "Docker available"
                                  else "Using mock execution"))
                           (passed_count st) (List.length cases)
                           (Some (results st))),
          launches st).
Proof.
  intros H. exact (execute_code_sync_log_sized W code text (JArr cases) _ H eq_refl).
Qed.

(** ** Docker is not there *)

Lemma unavailable_iteration W code idx tc :
  cannot_run W ->
  entries_sync W code (idx, tc) = [warning_entry idx]
  /\ passed_count (iteration_sync W code empty (idx, tc)) = 0.
Proof.
  intros H. unfold entries_sync, iteration_sync, try_block_sync.
  destruct (fill W script_sync code idx tc) as [e | s]; [ now split | ].
  destruct (H idx (docker_argv_sync s) 10%Z) as [r ->]. now split.
Qed.

Lemma unavailable_entries W code n cases :
  cannot_run W ->
  flat_map (entries_sync W code) (enumerate_from n cases)
  = map warning_entry (seq n (List.length cases)).
Proof.
  intros H. revert n. induction cases as [ | tc cases IH]; intros n; simpl.
  - reflexivity.
  - rewrite IH. now destruct (unavailable_iteration W code n tc H) as [-> _].
Qed.

Lemma unavailable_passed W code n cases :
  cannot_run W ->
  list_sum (map (fun it => passed_count (iteration_sync W code empty it))
                (enumerate_from n cases)) = 0.
Proof.
  intros H. unfold list_sum. revert n.
  induction cases as [ | tc cases IH]; intros n;
    cbn [enumerate_from map fold_right].
  - reflexivity.
  - rewrite IH. now destruct (unavailable_iteration W code n tc H) as [_ ->].
Qed.

(** C8 as the code has it: when every attempt to start a container raises
    in the judge and the suite has a test case, [execute_code_sync] lets
    nothing through: it returns status "warning" with the message "Using
    mock execution", no test passed, and every test case has its warning
    entry, in order. *)
Theorem docker_unavailable_degrades W code text cases :
  json_loads W text = inr (JArr cases) ->
  cases <> [] ->
  cannot_run W ->
  execute_code_sync W code text
  = Returns (Verdict "warning" (Some "Using mock execution") 0 (List.length cases)
               (Some (map warning_entry (seq 0 (List.length cases))))).
Proof.
  intros Hl Hne Hrun.
  destruct (execute_code_sync_log_list W code text cases Hl) as (w & Hw & E).
  unfold execute_code_sync. rewrite E. clear E. simpl.
  rewrite (fold_results _ (iteration_sync_frame W code)).
  rewrite (fold_passed_count _ (iteration_sync_frame W code)).
  unfold enumerate in *.
  change (fun it => results (iteration_sync W code empty it))
    with (entries_sync W code).
  rewrite (unavailable_passed W code 0 cases Hrun).
  rewrite (unavailable_entries W code 0 cases Hrun) in *.
  destruct cases as [ | tc cases]; [ congruence | ].
  simpl in Hw. injection Hw as <-. reflexivity.
Qed.

Lemma docker_unavailable_degrades_witness :
  execute_code_sync (Scenario.world []) Scenario.code "[{}, {}]"
  = Returns (Verdict "warning" (Some "Using mock execution") 0 2
               (Some [warning_entry 0; warning_entry 1])).
Proof.
  apply (docker_unavailable_degrades (Scenario.world []) Scenario.code
           "[{}, {}]" [JObj []; JObj []]).
  - reflexivity.
  - discriminate.
  - intros idx argv timeout. eexists. simpl.
    destruct idx as [ | idx]; reflexivity.
Defined.

(** C8 as stated fails on a suite without test cases: Docker is missing,
    the status is "warning", and the message says "Docker available". *)
Lemma empty_suite_reports_docker_available :
  cannot_run (Scenario.world [])
  /\ execute_code_sync (Scenario.world []) Scenario.code "[]"
     = Returns (Verdict "warning" (Some "Docker available") 0 0 (Some [])).
Proof.
  split; [ | reflexivity ].
  intros idx argv timeout. eexists. simpl. destruct idx as [ | idx]; reflexivity.
Qed.

(** ** The calls of [subprocess.run] *)

Lemma record_stdout_launches W out st :
  launches (fst (record_stdout W out st)) = launches st.
Proof.
  unfold record_stdout.
  destruct (truthy (strip out)); [ | reflexivity ].
  destruct (json_loads W (strip out)) as [msg | test_result]; [ reflexivity | ].
  destruct (get test_result "status" JNull) as [e | s]; [ reflexivity | ].
  now destruct (eq s (JStr "passed")).
Qed.

Lemma iteration_sync_launches W code idx tc :
  launches (iteration_sync W code empty (idx, tc))
  = match fill W script_sync code idx tc with
    | inl _ => []
    | inr s => [docker_argv_sync s]
    end.
Proof.
  unfold iteration_sync, try_block_sync.
  destruct (fill W script_sync code idx tc) as [e | s]; [ reflexivity | ].
  destruct (subprocess_run W idx (docker_argv_sync s) 10) as [r | result];
    [ reflexivity | ].
  destruct (returncode result =? 0)%Z; [ | reflexivity ].
  pose proof (record_stdout_launches W (stdout result)
                (launch (docker_argv_sync s) empty)) as L.
  destruct (record_stdout W (stdout result) (launch (docker_argv_sync s) empty))
    as [d [r | ]]; simpl in *; exact L.
Qed.

Lemma iteration_launches W code timeout idx tc :
  launches (iteration W code timeout empty (idx, tc))
  = match fill W script code idx tc with
    | inl _ => []
    | inr s => [docker_argv s]
    end.
Proof.
  unfold iteration, try_block.
  destruct (fill W script code idx tc) as [e | s]; [ reflexivity | ].
  destruct (subprocess_run W idx (docker_argv s) timeout) as [[ | e] | result];
    [ reflexivity | reflexivity | ].
  destruct (returncode result =? 0)%Z; [ | reflexivity ].
  pose proof (record_stdout_launches W (stdout result)
                (launch (docker_argv s) empty)) as L.
  destruct (record_stdout W (stdout result) (launch (docker_argv s) empty))
    as [d [[ | e] | ]]; simpl in *; exact L.
Qed.

(** A test case that is a dict fills the holes of the script with its
    fields, or their defaults; any other value has no [get]. *)
Lemma fill_fields W template code idx tc :
  fill W template code idx tc
  = match tc with
    | JObj fields =>
        inr (template code
               (json_dumps W (match lookup fields "input" with
                              | Some x => x | None => JObj [] end))
               (json_dumps W (match lookup fields "output" with
                              | Some x => x | None => JNull end)) idx)
    | _ => inl (AttributeError (type_of tc) "get")
    end.
Proof. destruct tc; reflexivity. Qed.

Lemma calls_of_fields (template : string -> string -> string -> nat -> string)
    (argv_of : string -> list string) W code (its : list (nat * json)) :
  flat_map (fun it : nat * json =>
              match fill W template code (fst it) (snd it) with
              | inl _ => []
              | inr s => [argv_of s]
              end) its
  = flat_map (fun it : nat * json =>
                match snd it with
                | JObj fields =>
                    [argv_of
                       (template code
                          (json_dumps W (match lookup fields "input" with
                                         | Some x => x | None => JObj [] end))
                          (json_dumps W (match lookup fields "output" with
                                         | Some x => x | None => JNull end))
                          (fst it))]
                | _ => []
                end) its.
Proof.
  apply flat_map_ext. intros [idx tc]. cbn [fst snd]. rewrite fill_fields.
  destruct tc; reflexivity.
Qed.

Lemma calls_length {A} (f : nat * json -> list (string * json) -> A) n cases :
  List.length
    (flat_map (fun it : nat * json =>
                 match snd it with
                 | JObj fields => [f it fields]
                 | _ => []
                 end) (enumerate_from n cases))
  = List.length (filter is_dictb cases).
Proof.
  revert n. induction cases as [ | tc cases IH]; intros n; [ reflexivity | ].
  cbn [enumerate_from flat_map filter snd]. rewrite length_app, IH.
  destruct tc; reflexivity.
Qed.

(** The calls of a whole run, in order. *)
Lemma execute_code_calls W code text timeout cases :
  json_loads W text = inr (JArr cases) ->
  snd (execute_code_log W code text timeout)
  = flat_map (fun it : nat * json =>
                match snd it with
                | JObj fields =>
                    [docker_argv
                       (script code
                          (json_dumps W (match lookup fields "input" with
                                         | Some x => x | None => JObj [] end))
                          (json_dumps W (match lookup fields "output" with
                                         | Some x => x | None => JNull end))
                          (fst it))]
                | _ => []
                end) (enumerate cases).
Proof.
  intros Hl. rewrite (execute_code_log_list _ _ _ _ _ Hl). cbn [snd].
  rewrite (fold_launches _ (iteration_frame W code timeout)).
  rewrite <- (calls_of_fields script docker_argv).
  apply flat_map_ext. intros [idx tc]. apply iteration_launches.
Qed.

Lemma execute_code_sync_calls W code text cases :
  json_loads W text = inr (JArr cases) ->
  snd (execute_code_sync_log W code text)
  = flat_map (fun it : nat * json =>
                match snd it with
                | JObj fields =>
                    [docker_argv_sync
                       (script_sync code
                          (json_dumps W (match lookup fields "input" with
                                         | Some x => x | None => JObj [] end))
                          (json_dumps W (match lookup fields "output" with
                                         | Some x => x | None => JNull end))
                          (fst it))]
                | _ => []
                end) (enumerate cases).
Proof.
  intros Hl.
  destruct (execute_code_sync_log_list W code text cases Hl) as (w & _ & E).
  rewrite E. cbn [snd].
  rewrite (fold_launches _ (iteration_sync_frame W code)).
  rewrite <- (calls_of_fields script_sync docker_argv_sync).
  apply flat_map_ext. intros [idx tc]. apply iteration_sync_launches.
Qed.

(** ** No retry, no memory of earlier failures *)




(** ** The statuses of [execute_code_sync] *)

(** [execute_code_sync] raises what [json.loads] raises other than
    [JSONDecodeError], and the [TypeError] of [len] on a decoded value
    without a length; it has then called [subprocess.run] for no test
    case. *)
Lemma sync_raises W code text e :
  (json_loads W text = inl e /\ is_JSONDecodeError e = false)
  \/ (exists j, json_loads W text = inr j /\ len j = inl e) ->
  execute_code_sync_log W code text = (Raises e, []).
Proof.
  unfold execute_code_sync_log.
  intros [[-> ->] | (j & -> & ->)]; reflexivity.
Qed.

(** C10 as the code has it: when [json.loads] raises [JSONDecodeError] on
    the text or returns a value that has a length, [execute_code_sync]
    returns a verdict; its status is "passed", "warning" or "error", never
    "failed", and it is "error" exactly when the text did not decode.  The
    verdict is "warning" also for a suite whose one test result is
    "failed". *)
Theorem sync_status_never_failed W code text :
  (exists msg, json_loads W text = inl (JSONDecodeError msg))
  \/ (exists j n, json_loads W text = inr j /\ len j = inr n) ->
  (exists v, execute_code_sync W code text = Returns v
             /\ (status v = "passed" \/ status v = "warning"
                 \/ status v = "error")
             /\ status v <> "failed"
             /\ (status v = "error"
                 <-> exists msg, json_loads W text = inl (JSONDecodeError msg)))
  /\ let failed :=
       JObj [("status", JStr "failed"); ("test_case", JInt 0);
             ("expected", JInt 2); ("got", JInt 1)] in
     execute_code_sync (Scenario.world [Scenario.prints failed])
                       Scenario.code "[{}]"
     = Returns (Verdict "warning" (Some "Docker available") 0 1 (Some [failed])).
Proof.
  intros H. split; [ | reflexivity ].
  destruct H as [[msg Hl] | (j & n & Hl & Hn)].
  - exists invalid_json. unfold execute_code_sync, execute_code_sync_log.
    rewrite Hl. simpl. repeat split; try tauto; try discriminate.
    intros _. now exists msg.
  - destruct (execute_code_sync_log_sized W code text j n Hl Hn) as (w & _ & E).
    unfold execute_code_sync. rewrite E. clear E. simpl.
    eexists. split; [ reflexivity | ]. simpl.
    destruct (Nat.eqb _ n && (0 <? n)%nat); repeat split;
      try discriminate; try tauto;
      intros [msg Hm]; rewrite Hl in Hm; discriminate.
Qed.

Lemma sync_status_never_failed_witness :
  let W := Scenario.world [Scenario.prints (Scenario.failed_json 0)] in
  (exists v, execute_code_sync W Scenario.code "[{}]" = Returns v
             /\ (status v = "passed" \/ status v = "warning"
                 \/ status v = "error")
             /\ status v <> "failed"
             /\ (status v = "error"
                 <-> exists msg, json_loads W "[{}]" = inl (JSONDecodeError msg)))
  /\ let failed :=
       JObj [("status", JStr "failed"); ("test_case", JInt 0);
             ("expected", JInt 2); ("got", JInt 1)] in
     execute_code_sync (Scenario.world [Scenario.prints failed])
                       Scenario.code "[{}]"
     = Returns (Verdict "warning" (Some "Docker available") 0 1 (Some [failed])).
Proof.
  apply (sync_status_never_failed
           (Scenario.world [Scenario.prints (Scenario.failed_json 0)])
           Scenario.code "[{}]").
  right. exists (JArr [JObj []]), 1. split; reflexivity.
Defined.

(** C10 as stated fails: on the text [5], which decodes to an int,
    [execute_code_sync] returns no status, it raises the [TypeError] of
    [len]; on 2000 opening brackets it raises the [RecursionError] of
    [json.loads]. *)
Lemma sync_returns_no_status :
  execute_code_sync (Scenario.world []) Scenario.code "5"
  = Raises (TypeError "object of type 'int' has no len()")
  /\ execute_code_sync (Scenario.world []) Scenario.code Scenario.deep
     = Raises (Exn "RecursionError" "maximum recursion depth exceeded while decoding a JSON array from a unicode string").
Proof. split; vm_compute; reflexivity. Qed.

(** ** Counting *)

Lemma record_stdout_counts W out :
  passed_count (fst (record_stdout W out empty))
  <= List.length (results (fst (record_stdout W out empty))) <= 1.
Proof.
  unfold record_stdout.
  destruct (truthy (strip out)); [ | simpl; lia ].
  destruct (json_loads W (strip out)) as [msg | test_result]; [ simpl; lia | ].
  destruct (get test_result "status" JNull) as [e | s]; [ simpl; lia | ].
  destruct (eq s (JStr "passed")); simpl; lia.
Qed.

Lemma record_stdout_raised_nothing W out d r :
  record_stdout W out empty = (d, Some r) -> results d = [] /\ passed_count d = 0.
Proof.
  unfold record_stdout.
  destruct (truthy (strip out)); [ | discriminate ].
  destruct (json_loads W (strip out)) as [msg | test_result];
    [ intros [= <- _]; now split | ].
  destruct (get test_result "status" JNull) as [e | s];
    [ intros [= <- _]; now split | discriminate ].
Qed.

Lemma iteration_counts W code timeout it :
  passed_count (iteration W code timeout empty it)
  <= List.length (results (iteration W code timeout empty it)) <= 1.
Proof.
  destruct it as [idx tc]. unfold iteration, try_block.
  destruct (fill W script code idx tc) as [e | s]; [ simpl; lia | ].
  destruct (subprocess_run W idx (docker_argv s) timeout) as [[ | e] | result];
    [ simpl; lia | simpl; lia | ].
  destruct (returncode result =? 0)%Z; [ | simpl; lia ].
  rewrite record_stdout_frame.
  pose proof (record_stdout_counts W (stdout result)) as C.
  pose proof (record_stdout_raised_nothing W (stdout result)) as N.
  destruct (record_stdout W (stdout result) empty) as [d [r | ]]; simpl in *.
  - destruct (N d r eq_refl) as [Hr Hp]. destruct r; simpl; rewrite Hr, Hp;
      simpl; lia.
  - lia.
Qed.

Lemma iteration_sync_counts W code it :
  passed_count (iteration_sync W code empty it)
  <= List.length (results (iteration_sync W code empty it)) <= 1.
Proof.
  destruct it as [idx tc]. unfold iteration_sync, try_block_sync.
  destruct (fill W script_sync code idx tc) as [e | s]; [ simpl; lia | ].
  destruct (subprocess_run W idx (docker_argv_sync s) 10) as [r | result];
    [ simpl; lia | ].
  destruct (returncode result =? 0)%Z; [ | simpl; lia ].
  rewrite record_stdout_frame.
  pose proof (record_stdout_counts W (stdout result)) as C.
  pose proof (record_stdout_raised_nothing W (stdout result)) as N.
  destruct (record_stdout W (stdout result) empty) as [d [r | ]]; simpl in *.
  - destruct (N d r eq_refl) as [Hr Hp]. rewrite Hr, Hp; simpl; lia.
  - lia.
Qed.

Section Counting.

Variable step : locals -> nat * json -> locals.
Hypothesis step_frame : forall st it, step st it = merge st (step empty it).
Hypothesis step_counts :
  forall it, passed_count (step empty it)
             <= List.length (results (step empty it)) <= 1.

Lemma fold_counts l :
  passed_count (fold_left step l empty)
  <= List.length (results (fold_left step l empty)) <= List.length l.
Proof.
  induction l as [ | it l IH]; [ simpl; lia | ].
  rewrite (fold_cons step step_frame). simpl.
  rewrite length_app. pose proof (step_counts it). lia.
Qed.

End Counting.

(** On a suite that is a list, both functions return a verdict in which
    the passed tests are no more than the entries of [test_results], and
    these no more than [total], the number of test cases. *)
Theorem counts_are_bounded W code text timeout cases :
  json_loads W text = inr (JArr cases) ->
  (exists v rs, execute_code W code text timeout = Returns v
                /\ test_results v = Some rs
                /\ passed v <= List.length rs <= total v
                /\ total v = List.length cases)
  /\ (exists v rs, execute_code_sync W code text = Returns v
                   /\ test_results v = Some rs
                   /\ passed v <= List.length rs <= total v
                   /\ total v = List.length cases).
Proof.
  intros Hl. split.
  - unfold execute_code. rewrite (execute_code_log_list _ _ _ _ _ Hl). simpl.
    do 2 eexists. repeat split; simpl;
      pose proof (fold_counts _ (iteration_frame W code timeout)
                    (iteration_counts W code timeout) (enumerate cases)) as C;
      unfold enumerate in *; rewrite enumerate_from_length in C; lia.
  - destruct (execute_code_sync_log_list W code text cases Hl) as (w & _ & E).
    unfold execute_code_sync. rewrite E. simpl.
    do 2 eexists. repeat split; simpl;
      pose proof (fold_counts _ (iteration_sync_frame W code)
                    (iteration_sync_counts W code) (enumerate cases)) as C;
      unfold enumerate in *; rewrite enumerate_from_length in C; lia.
Qed.

Lemma counts_are_bounded_witness :
  let W := Scenario.world [Scenario.silent;
                           Scenario.prints (Scenario.passed_json 1)] in
  (exists v rs, execute_code W Scenario.code "[{}, {}]" 10 = Returns v
                /\ test_results v = Some rs
                /\ passed v <= List.length rs <= total v
                /\ total v = 2)
  /\ (exists v rs, execute_code_sync W Scenario.code "[{}, {}]" = Returns v
                   /\ test_results v = Some rs
                   /\ passed v <= List.length rs <= total v
                   /\ total v = 2).
Proof.
  intros W.
  apply (counts_are_bounded W Scenario.code "[{}, {}]" 10 [JObj []; JObj []]).
  reflexivity.
Defined.

(** ** Timeouts *)





(** The verdict and the commands of a run on a solution that never
    returns, written out: one [docker run], and the error entry. *)
Lemma timeout_example :
  execute_code_log (Scenario.world [Scenario.hangs])
                   ("def solution():" ++ nl ++ "    while True: pass")%string
                   "[{}]" 10
  = (Returns (Verdict "failed" None 0 1
                (Some [JObj [("status", JStr "error"); ("test_case", JInt 0);
                             ("error", JStr "Timeout exceeded (10s)")]])),
     [[ "docker"; "run"; "--rm"; "--memory=256m"; "--cpus=0.5";
        "python:3.11-slim"; "python"; "-c";
        script ("def solution():" ++ nl ++ "    while True: pass")%string
               "{}" "null" 0 ]]).
Proof. reflexivity. Qed.

(** [execute_code_sync] has one handler for every exception: there a run
    that outlives its 10 seconds leaves the warning entry. *)
Lemma sync_timeout_is_warning W code idx test_case test_script :
  fill W script_sync code idx test_case = inr test_script ->
  subprocess_run W idx (docker_argv_sync test_script) 10 = inl TimeoutExpired ->
  entries_sync W code (idx, test_case) = [warning_entry idx].
Proof.
  intros Hf Hr. unfold entries_sync, iteration_sync, try_block_sync.
  now rewrite Hf, Hr.
Qed.

(** ** Order of the entries, and defaults of a test case *)

(** The entries of [execute_code] are never reordered: [test_results] is
    what the test cases add, taken in suite order; and a test case adds
    nothing, or an error entry that carries its own index, or the record
    decoded from the stdout of its own run, as it is. *)
Theorem results_in_suite_order W code text timeout cases :
  json_loads W text = inr (JArr cases) ->
  exists v,
    execute_code W code text timeout = Returns v
    /\ test_results v = Some (flat_map (entries W code timeout) (enumerate cases))
    /\ forall idx tc,
         entries W code timeout (idx, tc) = []
         \/ (exists msg, entries W code timeout (idx, tc) = [error_entry idx msg])
         \/ (exists s result r,
               fill W script code idx tc = inr s
               /\ subprocess_run W idx (docker_argv s) timeout = inr result
               /\ returncode result = 0%Z
               /\ json_loads W (strip (stdout result)) = inr r
               /\ entries W code timeout (idx, tc) = [r]).
Proof.
  intros Hl. eexists. split; [ | split ].
  - unfold execute_code. rewrite (execute_code_log_list _ _ _ _ _ Hl).
    reflexivity.
  - simpl. now rewrite (fold_results _ (iteration_frame W code timeout)).
  - intros idx tc. unfold entries, iteration, try_block.
    destruct (fill W script code idx tc) as [e | s] eqn:Hf;
      [ right; left; now eexists | ].
    destruct (subprocess_run W idx (docker_argv s) timeout)
      as [[ | e] | result] eqn:Hr;
      [ right; left; now eexists | right; left; now eexists | ].
    destruct (returncode result =? 0)%Z eqn:Hc;
      [ | right; left; now eexists ].
    apply Z.eqb_eq in Hc. unfold record_stdout.
    destruct (truthy (strip (stdout result))); [ | now left ].
    destruct (json_loads W (strip (stdout result))) as [msg | r] eqn:Hj;
      [ right; left; now eexists | ].
    destruct (get r "status" JNull) as [e | st];
      [ right; left; now eexists | ].
    right; right. exists s, result, r.
    repeat split; try assumption. now destruct (eq st (JStr "passed")).
Qed.

Lemma results_in_suite_order_witness :
  let W := Scenario.world [Scenario.prints (Scenario.passed_json 0);
                           Scenario.silent; Scenario.hangs] in
  exists v,
    execute_code W Scenario.code "[{}, {}, {}]" 10 = Returns v
    /\ test_results v
       = Some (flat_map (entries W Scenario.code 10)
                        (enumerate [JObj []; JObj []; JObj []]))
    /\ forall idx tc,
         entries W Scenario.code 10 (idx, tc) = []
         \/ (exists msg, entries W Scenario.code 10 (idx, tc) = [error_entry idx msg])
         \/ (exists s result r,
               fill W script Scenario.code idx tc = inr s
               /\ subprocess_run W idx (docker_argv s) 10 = inr result
               /\ returncode result = 0%Z
               /\ json_loads W (strip (stdout result)) = inr r
               /\ entries W Scenario.code 10 (idx, tc) = [r]).
Proof.
  intros W.
  apply (results_in_suite_order W Scenario.code "[{}, {}, {}]" 10
           [JObj []; JObj []; JObj []]).
  reflexivity.
Defined.

(** A test case without [input] and [output] starts the very script of
    the test case that spells them out as [{}] and [null]. *)
Theorem missing_fields_are_defaults W template code idx kv :
  lookup kv "input" = None ->
  lookup kv "output" = None ->
  fill W template code idx (JObj kv)
  = fill W template code idx (JObj (("input", JObj []) :: ("output", JNull) :: kv))
  /\ fill W template code idx (JObj kv)
     = inr (template code (json_dumps W (JObj [])) (json_dumps W JNull) idx).
Proof.
  intros Hi Ho. unfold fill. simpl. now rewrite Hi, Ho.
Qed.

Lemma missing_fields_are_defaults_witness :
  fill (Scenario.world []) script Scenario.code 0 (JObj [])
  = fill (Scenario.world []) script Scenario.code 0
         (JObj [("input", JObj []); ("output", JNull)])
  /\ fill (Scenario.world []) script Scenario.code 0 (JObj [])
     = inr (script Scenario.code
              (json_dumps (Scenario.world []) (JObj []))
              (json_dumps (Scenario.world []) JNull) 0).
Proof.
  apply (missing_fields_are_defaults (Scenario.world []) script Scenario.code 0 []);
    reflexivity.
Defined.

(* ===================================================================== *)
(** * Further properties of src/judge.py *)


(** ** The passed count and the passed entries *)

Lemma record_stdout_passed W out :
  passed_count (fst (record_stdout W out empty))
  = List.length (filter (has_status "passed")
                        (results (fst (record_stdout W out empty)))).
Proof.
  unfold record_stdout.
  destruct (truthy (strip out)); [ | reflexivity ].
  destruct (json_loads W (strip out)) as [msg | test_result]; [ reflexivity | ].
  destruct (get test_result "status" JNull) as [e | s] eqn:G; [ reflexivity | ].
  destruct (eq s (JStr "passed")) eqn:E; simpl; unfold has_status;
    now rewrite G, E.
Qed.

Lemma iteration_passed W code timeout it :
  passed_count (iteration W code timeout empty it)
  = List.length (filter (has_status "passed")
                        (results (iteration W code timeout empty it))).
Proof.
  destruct it as [idx tc]. unfold iteration, try_block.
  destruct (fill W script code idx tc) as [e | s]; [ reflexivity | ].
  destruct (subprocess_run W idx (docker_argv s) timeout) as [[ | e] | result];
    [ reflexivity | reflexivity | ].
  destruct (returncode result =? 0)%Z; [ | reflexivity ].
  rewrite record_stdout_frame.
  pose proof (record_stdout_passed W (stdout result)) as P.
  pose proof (record_stdout_raised_nothing W (stdout result)) as N.
  destruct (record_stdout W (stdout result) empty) as [d [r | ]]; simpl in *.
  - destruct (N d r eq_refl) as [Hr Hp]. destruct r; simpl; now rewrite Hr, Hp.
  - rewrite P. lia.
Qed.

Lemma iteration_sync_passed W code it :
  passed_count (iteration_sync W code empty it)
  = List.length (filter (has_status "passed")
                        (results (iteration_sync W code empty it))).
Proof.
  destruct it as [idx tc]. unfold iteration_sync, try_block_sync.
  destruct (fill W script_sync code idx tc) as [e | s]; [ reflexivity | ].
  destruct (subprocess_run W idx (docker_argv_sync s) 10) as [r | result];
    [ reflexivity | ].
  destruct (returncode result =? 0)%Z; [ | reflexivity ].
  rewrite record_stdout_frame.
  pose proof (record_stdout_passed W (stdout result)) as P.
  pose proof (record_stdout_raised_nothing W (stdout result)) as N.
  destruct (record_stdout W (stdout result) empty) as [d [r | ]]; simpl in *.
  - destruct (N d r eq_refl) as [Hr Hp]. now rewrite Hr, Hp.
  - rewrite P. lia.
Qed.

Section Tally.

Variable step : locals -> nat * json -> locals.
Hypothesis step_frame : forall st it, step st it = merge st (step empty it).
Hypothesis step_passed :
  forall it, passed_count (step empty it)
             = List.length (filter (has_status "passed") (results (step empty it))).

Lemma fold_passed l :
  passed_count (fold_left step l empty)
  = List.length (filter (has_status "passed") (results (fold_left step l empty))).
Proof.
  induction l as [ | it l IH]; [ reflexivity | ].
  rewrite (fold_cons step step_frame). simpl.
  rewrite filter_app, length_app, IH, step_passed. lia.
Qed.

End Tally.

(** In every verdict on a suite that is a list, [passed] is the number of
    entries of [test_results] whose status is "passed": no test is counted
    without its entry, and no passed entry goes uncounted. *)
Theorem passed_counts_passed_entries W code text timeout cases :
  json_loads W text = inr (JArr cases) ->
  (exists v rs, execute_code W code text timeout = Returns v
                /\ test_results v = Some rs
                /\ passed v = List.length (filter (has_status "passed") rs))
  /\ (exists v rs, execute_code_sync W code text = Returns v
                   /\ test_results v = Some rs
                   /\ passed v = List.length (filter (has_status "passed") rs)).
Proof.
  intros Hl. split.
  - unfold execute_code. rewrite (execute_code_log_list _ _ _ _ _ Hl). simpl.
    do 2 eexists. repeat split.
    apply (fold_passed _ (iteration_frame W code timeout)
             (iteration_passed W code timeout)).
  - destruct (execute_code_sync_log_list W code text cases Hl) as (w & _ & E).
    unfold execute_code_sync. rewrite E. simpl.
    do 2 eexists. repeat split.
    apply (fold_passed _ (iteration_sync_frame W code)
             (iteration_sync_passed W code)).
Qed.

Lemma passed_counts_passed_entries_witness :
  let W := Scenario.world [Scenario.prints (Scenario.passed_json 0);
                           Scenario.prints (Scenario.failed_json 0);
                           Scenario.hangs] in
  (exists v rs, execute_code W Scenario.code "[{}, {}, {}]" 10 = Returns v
                /\ test_results v = Some rs
                /\ passed v = List.length (filter (has_status "passed") rs))
  /\ (exists v rs, execute_code_sync W Scenario.code "[{}, {}, {}]" = Returns v
                   /\ test_results v = Some rs
                   /\ passed v = List.length (filter (has_status "passed") rs)).
Proof.
  intros W.
  apply (passed_counts_passed_entries W Scenario.code "[{}, {}, {}]" 10
           [JObj []; JObj []; JObj []]).
  reflexivity.
Defined.

(** ** The commands both functions run *)

(** On a suite that is a list, each function calls [subprocess.run] once
    for every test case that is a dict, in suite order, and not at all for
    a test case that is not one.  The command of [execute_code] is
    [docker run] with the memory and CPU limits on the script of that test
    case; the command of [execute_code_sync] has no limits. *)
Theorem docker_run_commands W code text timeout cases :
  let input fields :=
    json_dumps W (match lookup fields "input" with
                  | Some x => x | None => JObj [] end) in
  let output fields :=
    json_dumps W (match lookup fields "output" with
                  | Some x => x | None => JNull end) in
  json_loads W text = inr (JArr cases) ->
  snd (execute_code_log W code text timeout)
  = flat_map (fun it : nat * json =>
                match snd it with
                | JObj fields =>
                    [[ "docker"; "run"; "--rm"; "--memory=256m"; "--cpus=0.5";
                       "python:3.11-slim"; "python"; "-c";
                       script code (input fields) (output fields) (fst it) ]]
                | _ => []
                end) (enumerate cases)
  /\ snd (execute_code_sync_log W code text)
     = flat_map (fun it : nat * json =>
                   match snd it with
                   | JObj fields =>
                       [[ "docker"; "run"; "--rm";
                          "python:3.11-slim"; "python"; "-c";
                          script_sync code (input fields) (output fields)
                                      (fst it) ]]
                   | _ => []
                   end) (enumerate cases)
  /\ List.length (snd (execute_code_log W code text timeout))
     = List.length (filter is_dictb cases)
  /\ List.length (snd (execute_code_sync_log W code text))
     = List.length (filter is_dictb cases).
Proof.
  intros input output Hl.
  pose proof (execute_code_calls W code text timeout cases Hl) as E1.
  pose proof (execute_code_sync_calls W code text cases Hl) as E2.
  split; [ exact E1 | ]. split; [ exact E2 | ].
  rewrite E1, E2. unfold enumerate. now rewrite !calls_length.
Qed.

Lemma docker_run_commands_witness :
  let cases := [Scenario.test_case (JArr [JInt 2; JInt 3]) (JInt 5); JInt 7;
                JObj []] in
  let W := Scenario.docker true (Scenario.meaning Scenario.adder) cases in
  let code := Scenario.source Scenario.adder in
  let text := Scenario.dumps (JArr cases) in
  let input fields :=
    json_dumps W (match lookup fields "input" with
                  | Some x => x | None => JObj [] end) in
  let output fields :=
    json_dumps W (match lookup fields "output" with
                  | Some x => x | None => JNull end) in
  snd (execute_code_log W code text 10)
  = flat_map (fun it : nat * json =>
                match snd it with
                | JObj fields =>
                    [[ "docker"; "run"; "--rm"; "--memory=256m"; "--cpus=0.5";
                       "python:3.11-slim"; "python"; "-c";
                       script code (input fields) (output fields) (fst it) ]]
                | _ => []
                end) (enumerate cases)
  /\ snd (execute_code_sync_log W code text)
     = flat_map (fun it : nat * json =>
                   match snd it with
                   | JObj fields =>
                       [[ "docker"; "run"; "--rm";
                          "python:3.11-slim"; "python"; "-c";
                          script_sync code (input fields) (output fields)
                                      (fst it) ]]
                   | _ => []
                   end) (enumerate cases)
  /\ List.length (snd (execute_code_log W code text 10))
     = List.length (filter is_dictb cases)
  /\ List.length (snd (execute_code_sync_log W code text))
     = List.length (filter is_dictb cases).
Proof.
  intros cases W code text.
  apply (docker_run_commands W code text 10 cases).
  reflexivity.
Defined.

(** The commands of that run, written out: two for three test cases, none
    for the test case [7]. *)
Lemma docker_run_commands_example :
  let cases := [Scenario.test_case (JArr [JInt 2; JInt 3]) (JInt 5); JInt 7;
                JObj []] in
  execute_code_log (Scenario.docker true (Scenario.meaning Scenario.adder) cases)
                   "def solution(a, b): return a + b"
                   (Scenario.dumps (JArr cases)) 10
  = (Returns (Verdict "failed" None 1 3
                (Some [JObj [("status", JStr "passed"); ("test_case", JInt 0);
                             ("output", JInt 5)];
                       JObj [("status", JStr "error"); ("test_case", JInt 1);
                             ("error",
                              JStr "'int' object has no attribute 'get'")];
                       JObj [("status", JStr "error"); ("test_case", JInt 2);
                             ("error",
                              JStr (Scenario.traceback
                                      (Exn "NameError"
                                           "name 'null' is not defined")))]])),
     [[ "docker"; "run"; "--rm"; "--memory=256m"; "--cpus=0.5";
        "python:3.11-slim"; "python"; "-c";
        script "def solution(a, b): return a + b" "[2, 3]" "5" 0 ];
      [ "docker"; "run"; "--rm"; "--memory=256m"; "--cpus=0.5";
        "python:3.11-slim"; "python"; "-c";
        script "def solution(a, b): return a + b" "{}" "null" 2 ]]).
Proof. reflexivity. Qed.

(** ** What the status of [execute_code] says *)

Lemma chars_length s : List.length (chars s) = String.length s.
Proof. induction s as [ | c s IH]; simpl; [ | rewrite IH ]; reflexivity. Qed.

Lemma len_iter v n : len v = inr n -> List.length (iter v) = n.
Proof.
  destruct v; simpl; try discriminate; intros [= <-];
    [ apply chars_length | reflexivity | apply length_map ].
Qed.

Lemma is_JSONDecodeError_inv e :
  is_JSONDecodeError e = true -> e = JSONDecodeError (exc_msg e).
Proof.
  destruct e as [c m]. unfold is_JSONDecodeError, JSONDecodeError. simpl.
  intros H. apply String.eqb_eq in H. now subst.
Qed.

(** A verdict of [execute_code] is "error" exactly when the suite did not
    decode, and then it has no [test_results]; otherwise it is "passed"
    when every test is counted as passed and "failed" when fewer are.
    [execute_code] never answers "warning". *)
Theorem execute_code_status W code text timeout v :
  execute_code W code text timeout = Returns v ->
  (status v = "error" /\ test_results v = None
   /\ exists msg, json_loads W text = inl (JSONDecodeError msg))
  \/ (status v = "passed" /\ passed v = total v
      /\ exists suite, json_loads W text = inr suite)
  \/ (status v = "failed" /\ passed v < total v
      /\ exists suite, json_loads W text = inr suite).
Proof.
  unfold execute_code, execute_code_log.
  destruct (json_loads W text) as [e | suite] eqn:Hl; simpl.
  - destruct (is_JSONDecodeError e) eqn:He; [ | discriminate ].
    intros [= <-]. left. repeat split. exists (exc_msg e).
    now rewrite <- is_JSONDecodeError_inv.
  - destruct (len suite) as [e | n] eqn:Hn; simpl; [ discriminate | ].
    intros [= <-]. right. simpl.
    pose proof (fold_counts _ (iteration_frame W code timeout)
                  (iteration_counts W code timeout) (enumerate (iter suite))) as C.
    unfold enumerate in C. rewrite enumerate_from_length, (len_iter _ _ Hn) in C.
    fold empty. fold (enumerate (iter suite)).
    unfold enumerate in *.
    destruct (Nat.eqb_spec
                (passed_count (fold_left (iteration W code timeout)
                                 (enumerate_from 0 (iter suite)) empty)) n)
      as [Heq | Hne]; [ left | right ]; repeat split;
      try (now exists suite); lia.
Qed.

Lemma execute_code_status_witness :
  let v := Verdict "failed" None 1 3
             (Some [Scenario.passed_json 0;
                    error_entry 1 "Timeout exceeded (3s)";
                    error_entry 2 "Traceback"]) in
  let W := Scenario.world [Scenario.prints (Scenario.passed_json 0);
                           Scenario.hangs;
                           Scenario.crashes "Traceback"] in
  (status v = "error" /\ test_results v = None
   /\ exists msg, json_loads W "[{}, {}, {}]" = inl (JSONDecodeError msg))
  \/ (status v = "passed" /\ passed v = total v
      /\ exists suite, json_loads W "[{}, {}, {}]" = inr suite)
  \/ (status v = "failed" /\ passed v < total v
      /\ exists suite, json_loads W "[{}, {}, {}]" = inr suite).
Proof.
  intros v W.
  apply (execute_code_status W Scenario.code "[{}, {}, {}]" 3 v).
  reflexivity.
Defined.

(* ===================================================================== *)
(** * Properties of src/app.py *)

(** ** [get_cors_origins] *)

Lemma lstrip_head s :
  lstrip s = EmptyString
  \/ exists c r, lstrip s = String c r /\ isspace c = false.
Proof.
  induction s as [ | c s IH]; simpl; [ now left | ].
  destruct (isspace c) eqn:E; [ exact IH | right; now exists c, s ].
Qed.

Lemma rstrip_idem s : rstrip (rstrip s) = rstrip s.
Proof.
  induction s as [ | c s IH]; [ reflexivity | ].
  simpl. destruct (rstrip s) as [ | d r] eqn:E.
  - destruct (isspace c) eqn:Hc; simpl; [ reflexivity | now rewrite Hc ].
  - change (rstrip (String c (String d r))) with
      (match rstrip (String d r) with
       | EmptyString => if isspace c then EmptyString else String c EmptyString
       | r' => String c r'
       end).
    now rewrite IH.
Qed.

Lemma rstrip_keeps_head c r :
  isspace c = false -> exists r', rstrip (String c r) = String c r'.
Proof.
  intros Hc. simpl. destruct (rstrip r); [ rewrite Hc | ]; now eexists.
Qed.

Lemma strip_idem s : strip (strip s) = strip s.
Proof.
  unfold strip. destruct (lstrip_head s) as [-> | (c & r & -> & Hc)];
    [ reflexivity | ].
  destruct (rstrip_keeps_head c r Hc) as [r' E]. rewrite E.
  simpl lstrip. rewrite Hc, <- E. apply rstrip_idem.
Qed.

Lemma lstrip_letters c s : In c (letters (lstrip s)) -> In c (letters s).
Proof.
  induction s as [ | d s IH]; simpl; [ tauto | ].
  destruct (isspace d); simpl; tauto.
Qed.

Lemma rstrip_letters c s : In c (letters (rstrip s)) -> In c (letters s).
Proof.
  induction s as [ | d s IH]; simpl; [ tauto | ].
  destruct (rstrip s) as [ | e r]; [ destruct (isspace d) | ]; simpl in *; tauto.
Qed.

Lemma strip_letters c s : In c (letters (strip s)) -> In c (letters s).
Proof. intros H. now apply lstrip_letters, rstrip_letters. Qed.

Lemma split_nonempty sep s : App.split sep s <> [].
Proof.
  destruct s as [ | c s]; simpl; [ discriminate | ].
  destruct (Ascii.eqb c sep); [ discriminate | ].
  destruct (App.split sep s); discriminate.
Qed.

Lemma split_pieces sep s :
  Forall (fun piece => ~ In sep (letters piece)) (App.split sep s).
Proof.
  induction s as [ | c s IH]; simpl; [ repeat constructor; tauto | ].
  destruct (Ascii.eqb_spec c sep) as [-> | Hne].
  - constructor; [ simpl; tauto | exact IH ].
  - destruct (App.split sep s) as [ | piece rest];
      [ repeat constructor; simpl; intuition congruence | ].
    inversion IH as [ | ? ? Hp Hr]; subst.
    constructor; [ simpl; intuition congruence | exact Hr ].
Qed.

Lemma truthy_nonempty s : truthy s = true <-> s <> EmptyString.
Proof. destruct s; simpl; split; congruence. Qed.

Lemma kept_piece_clean piece :
  truthy (strip piece) = true ->
  ~ In App.comma (letters piece) ->
  clean_origin (strip piece).
Proof.
  intros Ht Hp. repeat split.
  - now apply truthy_nonempty.
  - apply strip_idem.
  - intros H. apply Hp. now apply strip_letters.
Qed.

Lemma kept_pieces sep (f : string -> bool) s piece :
  In piece (filter f (App.split sep s)) ->
  f piece = true /\ ~ In sep (letters piece).
Proof.
  intros Hin. apply filter_In in Hin. destruct Hin as [Hin Ht].
  split; [ exact Ht | ].
  pose proof (split_pieces sep s) as P. rewrite Forall_forall in P.
  now apply P.
Qed.

(** The origins that [get_cors_origins] returns are never empty, have no
    white space left to strip at either end and hold no comma, whatever
    the variable holds; without the variable the one origin is
    http://localhost:3000. *)
Theorem cors_origins_clean :
  (forall environ, Forall clean_origin (App.get_cors_origins environ))
  /\ App.get_cors_origins None = ["http://localhost:3000"].
Proof.
  split; [ | reflexivity ].
  intros environ. unfold App.get_cors_origins.
  apply Forall_map, Forall_forall. intros piece Hin.
  apply kept_pieces in Hin. destruct Hin as [Ht Hp].
  now apply kept_piece_clean.
Qed.

Lemma split_free sep s : ~ In sep (letters s) -> App.split sep s = [s].
Proof.
  induction s as [ | c s IH]; simpl; [ reflexivity | ].
  intros H. destruct (Ascii.eqb_spec c sep) as [-> | Hne]; [ tauto | ].
  rewrite IH; tauto.
Qed.

Lemma split_app_sep sep s t :
  ~ In sep (letters s) ->
  App.split sep (s ++ String sep t)%string = s :: App.split sep t.
Proof.
  induction s as [ | c s IH]; simpl.
  - intros _. now rewrite Ascii.eqb_refl.
  - intros H. destruct (Ascii.eqb_spec c sep) as [-> | Hne]; [ tauto | ].
    rewrite IH; tauto.
Qed.

Lemma split_join l :
  Forall (fun piece => ~ In App.comma (letters piece)) l ->
  l <> [] ->
  App.split App.comma (App.join "," l) = l.
Proof.
  unfold App.join.
  induction l as [ | x l IH]; intros Hf Hne; [ congruence | ].
  inversion Hf as [ | ? ? Hx Hl]; subst.
  destruct l as [ | y l].
  - simpl. now apply split_free.
  - change (String.concat "," (x :: y :: l))
      with (x ++ String App.comma (String.concat "," (y :: l)))%string.
    rewrite (split_app_sep _ _ _ Hx). f_equal.
    apply IH; [ exact Hl | discriminate ].
Qed.

Lemma filter_all {A} (f : A -> bool) l :
  Forall (fun x => f x = true) l -> filter f l = l.
Proof.
  induction 1 as [ | x l Hx _ IH]; simpl; [ | rewrite Hx, IH ]; reflexivity.
Qed.

Lemma map_fixed {A} (f : A -> A) l : Forall (fun x => f x = x) l -> map f l = l.
Proof.
  induction 1 as [ | x l Hx _ IH]; simpl; [ | rewrite Hx, IH ]; reflexivity.
Qed.

(** Writing the returned origins back into the variable, joined by
    commas, changes nothing: [get_cors_origins] returns them again, the
    same ones in the same order. *)
Theorem cors_origins_stable (environ : option string) :
  App.get_cors_origins (Some (App.join "," (App.get_cors_origins environ)))
  = App.get_cors_origins environ.
Proof.
  assert (C : Forall clean_origin (App.get_cors_origins environ)).
  { unfold App.get_cors_origins. apply Forall_map, Forall_forall.
    intros piece Hin. apply kept_pieces in Hin. destruct Hin as [Ht Hp].
    now apply kept_piece_clean. }
  remember (App.get_cors_origins environ) as l eqn:El. clear El.
  destruct l as [ | x l]; [ reflexivity | ].
  unfold App.get_cors_origins at 1.
  rewrite split_join.
  - rewrite filter_all.
    + apply map_fixed. eapply Forall_impl; [ | exact C ]. now intros o (_ & H & _).
    + eapply Forall_impl; [ | exact C ]. intros o (Hne & H & _).
      rewrite H. now apply truthy_nonempty.
  - eapply Forall_impl; [ | exact C ]. now intros o (_ & _ & H).
  - discriminate.
Qed.

(** ** Keys and lookups *)

Lemma next_id_fresh ids : ~ In (App.next_id ids) ids.
Proof.
  unfold App.next_id. intros H.
  assert (B : Forall (fun k => k <= list_max ids) ids) by now apply list_max_le.
  rewrite Forall_forall in B. specialize (B _ H). lia.
Qed.

Lemma find_last {A} (f : A -> bool) l x :
  find f (l ++ [x])
  = match find f l with
    | Some y => Some y
    | None => if f x then Some x else None
    end.
Proof.
  induction l as [ | y l IH]; simpl; [ reflexivity | ].
  destruct (f y); [ reflexivity | exact IH ].
Qed.

Lemma find_absent {A} (f : A -> bool) l :
  (forall y, In y l -> f y = false) -> find f l = None.
Proof.
  induction l as [ | y l IH]; simpl; intros H; [ reflexivity | ].
  rewrite (H y (or_introl Logic.eq_refl)). apply IH. intros z Hz. apply H. now right.
Qed.

Lemma find_inserted {A} (key : A -> nat) l x :
  ~ In (key x) (map key l) ->
  find (fun y => Nat.eqb (key y) (key x)) (l ++ [x]) = Some x.
Proof.
  intros Hf. rewrite find_last, find_absent, Nat.eqb_refl; [ reflexivity | ].
  intros y Hy. apply Nat.eqb_neq. intros E. apply Hf. rewrite <- E.
  now apply in_map.
Qed.

Lemma current_user_users username db db' :
  App.users db' = App.users db ->
  App.current_user username db' = App.current_user username db.
Proof. unfold App.current_user. now intros ->. Qed.

(** ** [submit_solution] *)

(** A submission whose code is empty or white space is never judged and
    never stored: the handler raises an HTTP error, 400 "Code cannot be
    empty" once the user and the problem are found, and no container has
    been started. *)
Theorem blank_code_is_rejected W problem_id submission username db :
  truthy (strip (App.SubmissionCreate.code submission)) = false ->
  exists status_code detail,
    App.submit_solution W problem_id submission username db
    = (inl (App.HTTPException status_code detail), [])
    /\ (status_code = 401 \/ status_code = 404 \/ status_code = 400)
    /\ (forall user problem,
          App.current_user username db = inr user ->
          find (App.by_problem_id problem_id) (App.problems db) = Some problem ->
          status_code = 400 /\ detail = "Code cannot be empty").
Proof.
  intros Hb. unfold App.submit_solution, App.current_user.
  destruct (find (App.by_username username) (App.users db)) as [u | ].
  - destruct (find (App.by_problem_id problem_id) (App.problems db)) as [p | ].
    + rewrite Hb. simpl. do 2 eexists. repeat split; auto.
    + do 2 eexists. repeat split; auto; discriminate.
  - do 2 eexists. repeat split; auto; discriminate.
Qed.

Lemma blank_code_is_rejected_witness :
  exists status_code detail,
    App.submit_solution Sample.world 1 (App.SubmissionCreate.Make "   ") "ada"
                        Sample.db
    = (inl (App.HTTPException status_code detail), [])
    /\ (status_code = 401 \/ status_code = 404 \/ status_code = 400)
    /\ (forall user problem,
          App.current_user "ada" Sample.db = inr user ->
          find (App.by_problem_id 1) (App.problems Sample.db) = Some problem ->
          status_code = 400 /\ detail = "Code cannot be empty").
Proof.
  apply (blank_code_is_rejected Sample.world 1 (App.SubmissionCreate.Make "   ")
           "ada" Sample.db).
  reflexivity.
Defined.

Lemma sync_log_status W code text v log :
  execute_code_sync_log W code text = (Returns v, log) ->
  (status v = "error"
   /\ exists msg, json_loads W text = inl (JSONDecodeError msg))
  \/ ((status v = "passed" \/ status v = "warning")
      /\ exists suite, json_loads W text = inr suite).
Proof.
  unfold execute_code_sync_log.
  destruct (json_loads W text) as [e | suite]; simpl.
  - destruct (is_JSONDecodeError e) eqn:He; [ | discriminate ].
    intros [= <- _]. left. split; [ reflexivity | ]. exists (exc_msg e).
    now rewrite <- is_JSONDecodeError_inv.
  - destruct (len suite) as [e | n]; [ discriminate | ].
    destruct (any_warning _) as [e | w]; [ discriminate | ].
    intros [= <- _]. right. simpl. split; [ | now exists suite ].
    destruct (_ && _); auto.
Qed.



(** ** Problems keep test cases that decode *)

Lemma find_in {A} (f : A -> bool) l x : find f l = Some x -> In x l /\ f x = true.
Proof. apply find_some. Qed.

Lemma replace_first_forall (P : App.Problem.t -> Prop) problem_id row rows :
  P row -> Forall P rows -> Forall P (App.replace_first problem_id row rows).
Proof.
  intros Hr. induction 1 as [ | p rows Hp Hrows IH]; simpl; [ constructor | ].
  destruct (App.by_problem_id problem_id p); constructor; assumption.
Qed.

Lemma updated_cases_decode W field old :
  App.decodes W old ->
  App.validate W field = None ->
  App.decodes W (App.updated field old).
Proof.
  intros Ho. unfold App.updated, App.validate.
  destruct field as [text | ]; [ | now intros _ ].
  destruct (truthy text); [ | now intros _ ].
  destruct (json_loads W text) as [e | v] eqn:E; [ discriminate | ].
  intros _. now exists v.
Qed.

Lemma submit_keeps_tables W problem_id submission username db row db' log :
  App.submit_solution W problem_id submission username db = (inr (row, db'), log) ->
  App.users db' = App.users db /\ App.problems db' = App.problems db.
Proof.
  unfold App.submit_solution.
  destruct (App.current_user username db) as [r | user]; [ discriminate | ].
  destruct (find (App.by_problem_id problem_id) (App.problems db)) as [p | ];
    [ | discriminate ].
  destruct (negb _); [ discriminate | ].
  destruct (execute_code_sync_log _ _ _) as [[v | e] l]; [ | discriminate ].
  now intros [= <- <- <-].
Qed.

(** Every handler that writes keeps the test cases of every stored
    problem decodable: [create_problem] and [update_problem] refuse a
    text that [json.loads] rejects, and [register] and [submit_solution]
    leave the problems alone. *)
Theorem problems_stay_decodable W db :
  App.problems_decode W db ->
  (forall problem username row db',
      App.create_problem W problem username db = inr (row, db') ->
      App.problems_decode W db')
  /\ (forall problem_id problem_update username row db',
        App.update_problem W problem_id problem_update username db = inr (row, db') ->
        App.problems_decode W db')
  /\ (forall hash user row db',
        App.register hash user db = inr (row, db') -> App.problems_decode W db')
  /\ (forall problem_id submission username row db' log,
        App.submit_solution W problem_id submission username db
        = (inr (row, db'), log) ->
        App.problems_decode W db').
Proof.
  intros Inv. unfold App.problems_decode in *. repeat split.
  - intros problem username row db'. unfold App.create_problem.
    destruct (App.current_user username db) as [r | user]; [ discriminate | ].
    destruct (json_loads W (App.ProblemCreate.test_cases problem)) as [e | v] eqn:E;
      [ destruct (is_JSONDecodeError e); discriminate | ].
    intros [= <- <-]. simpl. apply Forall_app. split; [ exact Inv | ].
    repeat constructor. now exists v.
  - intros problem_id problem_update username row db'. unfold App.update_problem.
    destruct (App.current_user username db) as [r | user]; [ discriminate | ].
    destruct (find (App.by_problem_id problem_id) (App.problems db)) as [p | ] eqn:F;
      [ | discriminate ].
    destruct (negb _); [ discriminate | ].
    destruct (App.validate W _) as [r | ] eqn:V; [ discriminate | ].
    intros [= <- <-]. simpl. apply replace_first_forall; [ | exact Inv ].
    simpl. apply updated_cases_decode; [ | exact V ].
    apply find_in in F. rewrite Forall_forall in Inv. now apply Inv.
  - intros hash user row db'. unfold App.register.
    destruct (find _ _); [ discriminate | ].
    destruct (find _ _); [ discriminate | ].
    now intros [= <- <-].
  - intros problem_id submission username row db' log H.
    apply submit_keeps_tables in H. destruct H as (_ & ->). exact Inv.
Qed.

Lemma sample_problems_decode : App.problems_decode Sample.world Sample.db.
Proof.
  unfold App.problems_decode. repeat constructor.
  now exists (JArr [JObj []]).
Qed.

Lemma problems_stay_decodable_witness :
  (forall problem username row db',
      App.create_problem Sample.world problem username Sample.db = inr (row, db') ->
      App.problems_decode Sample.world db')
  /\ (forall problem_id problem_update username row db',
        App.update_problem Sample.world problem_id problem_update username Sample.db
        = inr (row, db') ->
        App.problems_decode Sample.world db')
  /\ (forall hash user row db',
        App.register hash user Sample.db = inr (row, db') ->
        App.problems_decode Sample.world db')
  /\ (forall problem_id submission username row db' log,
        App.submit_solution Sample.world problem_id submission username Sample.db
        = (inr (row, db'), log) ->
        App.problems_decode Sample.world db').
Proof.
  apply (problems_stay_decodable Sample.world Sample.db).
  exact sample_problems_decode.
Defined.

(** While the stored problems decode, no submission is stored with the
    status "error": what [submit_solution] stores is "passed" or
    "warning". *)
Theorem stored_status_is_never_error W problem_id submission username db row db' log :
  App.problems_decode W db ->
  App.submit_solution W problem_id submission username db = (inr (row, db'), log) ->
  App.Submission.status row = "passed" \/ App.Submission.status row = "warning".
Proof.
  intros Inv. unfold App.submit_solution.
  destruct (App.current_user username db) as [r | user]; [ discriminate | ].
  destruct (find (App.by_problem_id problem_id) (App.problems db)) as [p | ] eqn:F;
    [ | discriminate ].
  destruct (negb _); [ discriminate | ].
  destruct (execute_code_sync_log W (App.SubmissionCreate.code submission)
              (App.Problem.test_cases p)) as [[v | e] l] eqn:E; [ | discriminate ].
  intros [= <- _ _]. simpl.
  destruct (sync_log_status _ _ _ _ _ E) as [[_ [msg Hm]] | [H _]]; [ | exact H ].
  apply find_in in F. unfold App.problems_decode in Inv.
  rewrite Forall_forall in Inv. destruct (Inv p (proj1 F)) as [suite Hs].
  congruence.
Qed.

Lemma stored_status_is_never_error_witness :
  App.Submission.status Sample.stored = "passed"
  \/ App.Submission.status Sample.stored = "warning".
Proof.
  apply (stored_status_is_never_error Sample.world 1 Sample.solution "ada"
           Sample.db Sample.stored Sample.db_after
           [docker_argv_sync (script_sync Scenario.code "{}" "null" 0)]).
  - exact sample_problems_decode.
  - reflexivity.
Defined.

Lemma create_problem_frame W problem username db row db' :
  App.create_problem W problem username db = inr (row, db') ->
  App.users db' = App.users db
  /\ App.problems db' = App.problems db ++ [row]
  /\ App.submissions db' = App.submissions db
  /\ ~ In (App.Problem.id row) (map App.Problem.id (App.problems db))
  /\ App.Problem.test_cases row = App.ProblemCreate.test_cases problem
  /\ (exists creator, App.current_user username db = inr creator
                      /\ App.Problem.creator_id row = App.User.id creator).
Proof.
  unfold App.create_problem.
  destruct (App.current_user username db) as [r | creator]; [ discriminate | ].
  destruct (json_loads W _) as [e | v];
    [ destruct (is_JSONDecodeError e); discriminate | ].
  intros [= <- <-]. simpl. repeat split.
  - apply next_id_fresh.
  - now exists creator.
Qed.

(** [create_problem] checks only that the text decodes, so it stores a
    text that decodes to a value without a length (a number, a boolean,
    null) and the problem is then found under its key.  In any state of
    the database, for a stored problem whose test cases decode to such a
    value, a submission by a known user with code that is not blank (an
    ASCII text, where [strip] is [str.strip]) makes [submit_solution] fail with the [TypeError] of [len], which no
    handler catches: nothing is stored and [subprocess.run] is not
    called. *)
Theorem unsized_suite_breaks_submit W problem_id submission username db user
    problem suite e :
  App.current_user username db = inr user ->
  find (App.by_problem_id problem_id) (App.problems db) = Some problem ->
  json_loads W (App.Problem.test_cases problem) = inr suite ->
  len suite = inl e ->
  is_ascii (App.SubmissionCreate.code submission) = true ->
  truthy (strip (App.SubmissionCreate.code submission)) = true ->
  App.submit_solution W problem_id submission username db
  = (inl (App.Unhandled e), [])
  /\ (forall new creator,
        App.ProblemCreate.test_cases new = App.Problem.test_cases problem ->
        (exists c, App.current_user creator db = inr c) ->
        exists row db',
          App.create_problem W new creator db = inr (row, db')
          /\ App.Problem.test_cases row = App.Problem.test_cases problem
          /\ find (App.by_problem_id (App.Problem.id row)) (App.problems db')
             = Some row).
Proof.
  intros Hu Hp Hl He _ Hc. split.
  - unfold App.submit_solution. rewrite Hu, Hp, Hc. cbn [negb].
    unfold execute_code_sync_log. now rewrite Hl, He.
  - intros new creator Ht [c Hcu].
    destruct (App.create_problem W new creator db) as [r | [row db']] eqn:E.
    + exfalso. revert E. unfold App.create_problem. rewrite Hcu, Ht, Hl.
      discriminate.
    + exists row, db'. split; [ reflexivity | ].
      destruct (create_problem_frame _ _ _ _ _ _ E) as (_ & Ep & _ & Hf & Et & _).
      split; [ now rewrite Et | ].
      rewrite Ep. unfold App.by_problem_id.
      apply (find_inserted App.Problem.id _ _ Hf).
Qed.

Lemma unsized_suite_breaks_submit_witness :
  let db :=
    {| App.users := [Sample.ada; Sample.bob];
       App.problems := [Sample.sum; App.Problem.Row 2 "Five" "No suite" "hard" "5" 1];
       App.submissions := [Sample.stored] |} in
  App.submit_solution Sample.world 2 Sample.solution "bob" db
  = (inl (App.Unhandled (TypeError "object of type 'int' has no len()")), [])
  /\ (forall new creator,
        App.ProblemCreate.test_cases new = "5" ->
        (exists c, App.current_user creator db = inr c) ->
        exists row db',
          App.create_problem Sample.world new creator db = inr (row, db')
          /\ App.Problem.test_cases row = "5"
          /\ find (App.by_problem_id (App.Problem.id row)) (App.problems db')
             = Some row).
Proof.
  intros db.
  apply (unsized_suite_breaks_submit Sample.world 2 Sample.solution "bob" db
           Sample.bob (App.Problem.Row 2 "Five" "No suite" "hard" "5" 1)
           (JInt 5) (TypeError "object of type 'int' has no len()"));
    reflexivity.
Defined.

(** ** Reading submissions *)

(** A user reads only submissions of their own: [get_submission] returns
    the submission with the key asked for only when it belongs to the
    caller, and [list_submissions] and [list_problem_submissions] return
    exactly the caller's submissions (of that problem), in stored order. *)
Theorem submissions_are_private username db user problem_id :
  App.current_user username db = inr user ->
  (forall submission_id s,
      App.get_submission submission_id username db = inr s ->
      App.Submission.user_id s = App.User.id user
      /\ App.Submission.id s = submission_id
      /\ In s (App.submissions db))
  /\ (exists l, App.list_submissions username db = inr l
                /\ forall s, In s l <->
                             In s (App.submissions db)
                             /\ App.Submission.user_id s = App.User.id user)
  /\ (exists l, App.list_problem_submissions problem_id username db = inr l
                /\ forall s, In s l <->
                             In s (App.submissions db)
                             /\ App.Submission.user_id s = App.User.id user
                             /\ App.Submission.problem_id s = problem_id).
Proof.
  intros Hu. repeat split.
  - revert H. unfold App.get_submission. rewrite Hu.
    destruct (find _ _) as [x | ] eqn:F; [ | discriminate ].
    destruct (Nat.eqb_spec (App.Submission.user_id x) (App.User.id user));
      simpl; [ | discriminate ].
    now intros [= <-].
  - revert H. unfold App.get_submission. rewrite Hu.
    destruct (find _ _) as [x | ] eqn:F; [ | discriminate ].
    destruct (negb _); [ discriminate | ].
    intros [= <-]. apply find_in in F. now apply Nat.eqb_eq.
  - revert H. unfold App.get_submission. rewrite Hu.
    destruct (find _ _) as [x | ] eqn:F; [ | discriminate ].
    destruct (negb _); [ discriminate | ].
    intros [= <-]. now apply find_in in F.
  - unfold App.list_submissions. rewrite Hu. eexists. split; [ reflexivity | ].
    intros s. rewrite filter_In, Nat.eqb_eq. tauto.
  - unfold App.list_problem_submissions. rewrite Hu. eexists.
    split; [ reflexivity | ].
    intros s. rewrite filter_In, andb_true_iff, !Nat.eqb_eq. tauto.
Qed.

Lemma submissions_are_private_witness :
  (forall submission_id s,
      App.get_submission submission_id "bob" Sample.db_after = inr s ->
      App.Submission.user_id s = App.User.id Sample.bob
      /\ App.Submission.id s = submission_id
      /\ In s (App.submissions Sample.db_after))
  /\ (exists l, App.list_submissions "bob" Sample.db_after = inr l
                /\ forall s, In s l <->
                             In s (App.submissions Sample.db_after)
                             /\ App.Submission.user_id s = App.User.id Sample.bob)
  /\ (exists l, App.list_problem_submissions 1 "bob" Sample.db_after = inr l
                /\ forall s, In s l <->
                             In s (App.submissions Sample.db_after)
                             /\ App.Submission.user_id s = App.User.id Sample.bob
                             /\ App.Submission.problem_id s = 1).
Proof.
  apply (submissions_are_private "bob" Sample.db_after Sample.bob 1).
  reflexivity.
Defined.

(** ** [update_problem] *)

Lemma replace_first_ids problem_id row rows :
  App.Problem.id row = problem_id ->
  map App.Problem.id (App.replace_first problem_id row rows)
  = map App.Problem.id rows.
Proof.
  intros Hr. induction rows as [ | p rows IH]; simpl; [ reflexivity | ].
  unfold App.by_problem_id.
  destruct (Nat.eqb_spec (App.Problem.id p) problem_id) as [E | N]; simpl.
  - now rewrite Hr, E.
  - now rewrite IH.
Qed.

Lemma replace_first_same problem_id row rows :
  find (App.by_problem_id problem_id) rows = Some row ->
  App.replace_first problem_id row rows = rows.
Proof.
  induction rows as [ | p rows IH]; simpl; [ discriminate | ].
  destruct (App.by_problem_id problem_id p).
  - now intros [= ->].
  - intros H. now rewrite IH.
Qed.

(** Only its creator changes a problem.  When [update_problem] returns,
    the caller is the creator of the problem; the returned row keeps the
    key and the creator; the keys of the stored problems, the users and
    the submissions are as before; and each column holds the field of the
    request when that field is a non-empty text, and its old value when
    the field is absent or empty. *)
Theorem only_creator_updates W problem_id problem_update username db row db' :
  App.update_problem W problem_id problem_update username db = inr (row, db') ->
  exists user old,
    App.current_user username db = inr user
    /\ find (App.by_problem_id problem_id) (App.problems db) = Some old
    /\ App.Problem.creator_id old = App.User.id user
    /\ App.Problem.id row = problem_id
    /\ App.Problem.creator_id row = App.Problem.creator_id old
    /\ App.Problem.title row
       = (if App.given (App.ProblemUpdate.title problem_update)
          then match App.ProblemUpdate.title problem_update with
               | Some s => s | None => EmptyString end
          else App.Problem.title old)
    /\ App.Problem.description row
       = (if App.given (App.ProblemUpdate.description problem_update)
          then match App.ProblemUpdate.description problem_update with
               | Some s => s | None => EmptyString end
          else App.Problem.description old)
    /\ App.Problem.difficulty row
       = (if App.given (App.ProblemUpdate.difficulty problem_update)
          then match App.ProblemUpdate.difficulty problem_update with
               | Some s => s | None => EmptyString end
          else App.Problem.difficulty old)
    /\ App.Problem.test_cases row
       = (if App.given (App.ProblemUpdate.test_cases problem_update)
          then match App.ProblemUpdate.test_cases problem_update with
               | Some s => s | None => EmptyString end
          else App.Problem.test_cases old)
    /\ map App.Problem.id (App.problems db') = map App.Problem.id (App.problems db)
    /\ App.users db' = App.users db
    /\ App.submissions db' = App.submissions db.
Proof.
  unfold App.update_problem.
  destruct (App.current_user username db) as [r | user]; [ discriminate | ].
  destruct (find (App.by_problem_id problem_id) (App.problems db)) as [old | ] eqn:F;
    [ | discriminate ].
  destruct (Nat.eqb_spec (App.Problem.creator_id old) (App.User.id user)) as [E | N];
    simpl; [ | discriminate ].
  destruct (App.validate W _) as [refused | ]; [ discriminate | ].
  intros [= <- <-]. exists user, old. simpl.
  pose proof (proj2 (find_in _ _ _ F)) as Hid. apply Nat.eqb_eq in Hid.
  repeat split; try assumption.
  - unfold App.updated, App.given.
    destruct (App.ProblemUpdate.title problem_update) as [s | ];
      [ destruct (truthy s) | ]; reflexivity.
  - unfold App.updated, App.given.
    destruct (App.ProblemUpdate.description problem_update) as [s | ];
      [ destruct (truthy s) | ]; reflexivity.
  - unfold App.updated, App.given.
    destruct (App.ProblemUpdate.difficulty problem_update) as [s | ];
      [ destruct (truthy s) | ]; reflexivity.
  - unfold App.updated, App.given.
    destruct (App.ProblemUpdate.test_cases problem_update) as [s | ];
      [ destruct (truthy s) | ]; reflexivity.
  - now apply replace_first_ids.
Qed.

Lemma only_creator_updates_witness :
  exists user old,
    App.current_user "ada" Sample.db = inr user
    /\ find (App.by_problem_id 1) (App.problems Sample.db) = Some old
    /\ App.Problem.creator_id old = App.User.id user
    /\ App.Problem.id (App.Problem.Row 1 "Total" "Add two numbers" "easy" "[{}]" 1) = 1
    /\ App.Problem.creator_id
         (App.Problem.Row 1 "Total" "Add two numbers" "easy" "[{}]" 1)
       = App.Problem.creator_id old
    /\ App.Problem.title (App.Problem.Row 1 "Total" "Add two numbers" "easy" "[{}]" 1)
       = (if App.given (Some "Total")
          then match Some "Total" with Some s => s | None => EmptyString end
          else App.Problem.title old)
    /\ App.Problem.description
         (App.Problem.Row 1 "Total" "Add two numbers" "easy" "[{}]" 1)
       = (if App.given None
          then match @None string with Some s => s | None => EmptyString end
          else App.Problem.description old)
    /\ App.Problem.difficulty
         (App.Problem.Row 1 "Total" "Add two numbers" "easy" "[{}]" 1)
       = (if App.given None
          then match @None string with Some s => s | None => EmptyString end
          else App.Problem.difficulty old)
    /\ App.Problem.test_cases
         (App.Problem.Row 1 "Total" "Add two numbers" "easy" "[{}]" 1)
       = (if App.given (Some EmptyString)
          then match Some EmptyString with Some s => s | None => EmptyString end
          else App.Problem.test_cases old)
    /\ map App.Problem.id
           (App.problems
              {| App.users := [Sample.ada; Sample.bob];
                 App.problems :=
                   [App.Problem.Row 1 "Total" "Add two numbers" "easy" "[{}]" 1];
                 App.submissions := [] |})
       = map App.Problem.id (App.problems Sample.db)
    /\ App.users
         {| App.users := [Sample.ada; Sample.bob];
            App.problems :=
              [App.Problem.Row 1 "Total" "Add two numbers" "easy" "[{}]" 1];
            App.submissions := [] |}
       = App.users Sample.db
    /\ App.submissions
         {| App.users := [Sample.ada; Sample.bob];
            App.problems :=
              [App.Problem.Row 1 "Total" "Add two numbers" "easy" "[{}]" 1];
            App.submissions := [] |}
       = App.submissions Sample.db.
Proof.
  apply (only_creator_updates Sample.world 1
           (App.ProblemUpdate.Make (Some "Total") None None (Some EmptyString))
           "ada" Sample.db).
  reflexivity.
Defined.

(** An update that gives no field, each one absent or the empty text,
    changes nothing: the creator gets the problem back as it was and the
    database is the same.  No column can be emptied through
    [update_problem]. *)
Theorem empty_update_changes_nothing W problem_id problem_update username db row db' :
  App.given (App.ProblemUpdate.title problem_update) = false ->
  App.given (App.ProblemUpdate.description problem_update) = false ->
  App.given (App.ProblemUpdate.difficulty problem_update) = false ->
  App.given (App.ProblemUpdate.test_cases problem_update) = false ->
  App.update_problem W problem_id problem_update username db = inr (row, db') ->
  find (App.by_problem_id problem_id) (App.problems db) = Some row /\ db' = db.
Proof.
  intros Ht Hd Hf Hc. unfold App.update_problem.
  destruct (App.current_user username db) as [r | user]; [ discriminate | ].
  destruct (find (App.by_problem_id problem_id) (App.problems db)) as [old | ] eqn:F;
    [ | discriminate ].
  destruct (negb _); [ discriminate | ].
  destruct (App.validate W _) as [refused | ]; [ discriminate | ].
  assert (E : App.apply_update problem_update old = old).
  { unfold App.apply_update, App.updated, App.given in *.
    destruct problem_update as [t d f c]; simpl in *.
    destruct t as [t | ]; [ rewrite Ht | ]; destruct d as [d | ]; [ rewrite Hd | | rewrite Hd | ];
      destruct f as [f | ]; try rewrite Hf; destruct c as [c | ]; try rewrite Hc;
      now destruct old. }
  rewrite E. intros [= <- <-]. split; [ reflexivity | ].
  rewrite (replace_first_same _ _ _ F). now destruct db.
Qed.

Lemma empty_update_changes_nothing_witness :
  find (App.by_problem_id 1) (App.problems Sample.db) = Some Sample.sum
  /\ Sample.db = Sample.db.
Proof.
  apply (empty_update_changes_nothing Sample.world 1
           (App.ProblemUpdate.Make (Some EmptyString) None None (Some EmptyString))
           "ada" Sample.db Sample.sum Sample.db); reflexivity.
Defined.

(** ** [register] and [login] *)

Lemma find_none_map {A} (key : A -> string) (k : string) l :
  find (fun x => String.eqb (key x) k) l = None -> ~ In k (map key l).
Proof.
  induction l as [ | x l IH]; simpl; [ tauto | ].
  destruct (String.eqb_spec (key x) k) as [E | N]; [ discriminate | ].
  intros H [E | Hin]; [ congruence | now apply IH ].
Qed.

Lemma NoDup_snoc {A} (l : list A) x : NoDup l -> ~ In x l -> NoDup (l ++ [x]).
Proof.
  intros Hl Hx. apply NoDup_app; [ exact Hl | repeat constructor; tauto | ].
  intros y Hy [<- | []]. tauto.
Qed.

Lemma register_frame hash user db row db' :
  App.register hash user db = inr (row, db') ->
  find (App.by_username (App.UserCreate.username user)) (App.users db) = None
  /\ find (fun u => String.eqb (App.User.email u) (App.UserCreate.email user))
          (App.users db) = None
  /\ row = App.User.Row (App.next_id (map App.User.id (App.users db)))
                        (App.UserCreate.username user) (App.UserCreate.email user)
                        (hash (App.UserCreate.password user)) true
  /\ db' = {| App.users := App.users db ++ [row];
              App.problems := App.problems db;
              App.submissions := App.submissions db |}.
Proof.
  unfold App.register.
  destruct (find (App.by_username _) _); [ discriminate | ].
  destruct (find _ _); [ discriminate | ].
  now intros [= <- <-].
Qed.

(** [register] keeps user names and addresses unique: from a database
    where no two users share a name or an address it leads to one where
    none do.  The new user has a key that no user had, is active, and
    holds the hash of the password, not the password; problems and
    submissions are untouched. *)
Theorem register_keeps_users_distinct hash user db row db' :
  App.users_distinct db ->
  App.register hash user db = inr (row, db') ->
  App.users_distinct db'
  /\ ~ In (App.User.id row) (map App.User.id (App.users db))
  /\ App.User.is_active row = true
  /\ App.User.hashed_password row = hash (App.UserCreate.password user)
  /\ App.problems db' = App.problems db
  /\ App.submissions db' = App.submissions db.
Proof.
  intros [Hn He] H.
  destruct (register_frame _ _ _ _ _ H) as (Fn & Fe & -> & ->).
  unfold App.users_distinct. cbn [App.users App.problems App.submissions].
  rewrite !map_app. cbn [map App.User.username App.User.email App.User.id
                         App.User.is_active App.User.hashed_password].
  repeat split; try apply next_id_fresh.
  - apply NoDup_snoc; [ exact Hn | ].
    now apply (find_none_map App.User.username).
  - apply NoDup_snoc; [ exact He | ].
    now apply (find_none_map App.User.email).
Qed.

Lemma register_keeps_users_distinct_witness :
  let cy := App.User.Row 3 "cy" "cy@example.org" (Sample.get_password_hash "pw") true in
  let db' := {| App.users := [Sample.ada; Sample.bob; cy];
                App.problems := [Sample.sum]; App.submissions := [] |} in
  App.users_distinct db'
  /\ ~ In (App.User.id cy) (map App.User.id (App.users Sample.db))
  /\ App.User.is_active cy = true
  /\ App.User.hashed_password cy = Sample.get_password_hash "pw"
  /\ App.problems db' = App.problems Sample.db
  /\ App.submissions db' = App.submissions Sample.db.
Proof.
  intros cy db'.
  apply (register_keeps_users_distinct Sample.get_password_hash
           (App.UserCreate.Make "cy" "cy@example.org" "pw") Sample.db cy db').
  - split; simpl; repeat constructor; simpl; intuition discriminate.
  - reflexivity.
Defined.

(** A registered user can log in.  After [register] returns, [login]
    under the same name gives a bearer token for that name when
    [verify_password] accepts the password against the stored hash, and
    the error 401 "Incorrect username or password" when it does not, the
    very error that a name nobody registered gets. *)
Theorem registered_user_logs_in hash verify create minutes user db row db' password :
  App.register hash user db = inr (row, db') ->
  App.login verify create minutes (App.UserCreate.username user) password db'
  = (if verify password (hash (App.UserCreate.password user))
     then inr {| App.access_token :=
                   create [("sub", App.UserCreate.username user)] minutes;
                 App.token_type := "bearer" |}
     else inl (App.HTTPException 401 "Incorrect username or password"))
  /\ (forall stranger,
        find (App.by_username stranger) (App.users db') = None ->
        App.login verify create minutes stranger password db'
        = inl (App.HTTPException 401 "Incorrect username or password")).
Proof.
  intros H. destruct (register_frame _ _ _ _ _ H) as (Fn & _ & -> & ->).
  split.
  - unfold App.login. cbn [App.users]. rewrite find_last, Fn.
    unfold App.by_username at 1. cbn [App.User.username].
    rewrite String.eqb_refl. cbn [App.User.hashed_password App.User.username].
    now destruct (verify _ _).
  - intros stranger Hs. unfold App.login. now rewrite Hs.
Qed.

Lemma registered_user_logs_in_witness :
  let cy := App.User.Row 3 "cy" "cy@example.org" (Sample.get_password_hash "pw") true in
  let db' := {| App.users := [Sample.ada; Sample.bob; cy];
                App.problems := [Sample.sum]; App.submissions := [] |} in
  App.login Sample.verify_password Sample.create_access_token 30 "cy" "pw" db'
  = (if Sample.verify_password "pw" (Sample.get_password_hash "pw")
     then inr {| App.access_token := Sample.create_access_token [("sub", "cy")] 30;
                 App.token_type := "bearer" |}
     else inl (App.HTTPException 401 "Incorrect username or password"))
  /\ (forall stranger,
        find (App.by_username stranger) (App.users db') = None ->
        App.login Sample.verify_password Sample.create_access_token 30
                  stranger "pw" db'
        = inl (App.HTTPException 401 "Incorrect username or password")).
Proof.
  intros cy db'.
  apply (registered_user_logs_in Sample.get_password_hash Sample.verify_password
           Sample.create_access_token 30
           (App.UserCreate.Make "cy" "cy@example.org" "pw") Sample.db cy db' "pw").
  reflexivity.
Defined.

(** ** Storing and reading back *)

(** A created problem can be read back.  After [create_problem] returns
    a row, [get_problem] with the key of that row returns it, every
    problem that could be read before is read as before, and
    [list_problems] lists the new problem last; the row holds the test
    cases as they were sent and the caller as its creator. *)
Theorem created_problem_is_read_back W problem username db row db' :
  App.create_problem W problem username db = inr (row, db') ->
  App.get_problem (App.Problem.id row) db' = inr row
  /\ (forall problem_id other,
        App.get_problem problem_id db = inr other ->
        App.get_problem problem_id db' = inr other)
  /\ App.list_problems db' = App.list_problems db ++ [row]
  /\ App.Problem.test_cases row = App.ProblemCreate.test_cases problem
  /\ (exists creator, App.current_user username db = inr creator
                      /\ App.Problem.creator_id row = App.User.id creator).
Proof.
  intros H.
  destruct (create_problem_frame _ _ _ _ _ _ H) as (_ & Ep & _ & Hf & Et & Hc).
  unfold App.get_problem, App.list_problems. rewrite Ep.
  repeat split; try assumption.
  - unfold App.by_problem_id.
    now rewrite (find_inserted App.Problem.id (App.problems db) row Hf).
  - intros problem_id other. rewrite find_last.
    destruct (find (App.by_problem_id problem_id) (App.problems db));
      [ tauto | discriminate ].
Qed.

Lemma created_problem_is_read_back_witness :
  let row := App.Problem.Row 2 "Max" "Largest of two" "easy" "[{}, {}]" 2 in
  let db' := {| App.users := [Sample.ada; Sample.bob];
                App.problems := [Sample.sum; row]; App.submissions := [] |} in
  App.get_problem (App.Problem.id row) db' = inr row
  /\ (forall problem_id other,
        App.get_problem problem_id Sample.db = inr other ->
        App.get_problem problem_id db' = inr other)
  /\ App.list_problems db' = App.list_problems Sample.db ++ [row]
  /\ App.Problem.test_cases row = "[{}, {}]"
  /\ (exists creator, App.current_user "bob" Sample.db = inr creator
                      /\ App.Problem.creator_id row = App.User.id creator).
Proof.
  intros row db'.
  apply (created_problem_is_read_back Sample.world
           (App.ProblemCreate.Make "Max" "Largest of two" "easy" "[{}, {}]")
           "bob" Sample.db row db').
  reflexivity.
Defined.

(** A stored submission can be read back by its author and by nobody
    else.  After [submit_solution] returns a row, [get_submission] with
    the key of that row returns it to the caller and raises 403 for every
    user with another key; [list_submissions] of the caller ends with the
    new row. *)
Theorem stored_submission_is_read_back W problem_id submission username db row db' log :
  App.submit_solution W problem_id submission username db = (inr (row, db'), log) ->
  App.get_submission (App.Submission.id row) username db' = inr row
  /\ (exists before,
        App.list_submissions username db = inr before
        /\ App.list_submissions username db' = inr (before ++ [row]))
  /\ (forall other_name other,
        App.current_user other_name db = inr other ->
        App.User.id other <> App.Submission.user_id row ->
        App.get_submission (App.Submission.id row) other_name db'
        = inl (App.HTTPException 403 "You can only view your own submissions")).
Proof.
  unfold App.submit_solution.
  destruct (App.current_user username db) as [r | user] eqn:Hu; [ discriminate | ].
  destruct (find (App.by_problem_id problem_id) (App.problems db)) as [p | ];
    [ | discriminate ].
  destruct (negb _); [ discriminate | ].
  destruct (execute_code_sync_log _ _ _) as [[v | e] l]; [ | discriminate ].
  intros [= <- <- <-].
  set (row := App.Submission.Row _ _ _ _ _ _).
  assert (Hf : ~ In (App.Submission.id row)
                    (map App.Submission.id (App.submissions db)))
    by apply next_id_fresh.
  assert (Hfind : find (fun s => Nat.eqb (App.Submission.id s) (App.Submission.id row))
                       (App.submissions db ++ [row]) = Some row)
    by exact (find_inserted App.Submission.id _ row Hf).
  repeat split.
  - unfold App.get_submission.
    match goal with
    | |- context [App.current_user username ?d] =>
        rewrite (current_user_users username db d Logic.eq_refl)
    end.
    rewrite Hu.
    cbn [App.submissions]. rewrite Hfind.
    cbn [App.Submission.user_id row]. now rewrite Nat.eqb_refl.
  - eexists. unfold App.list_submissions.
    match goal with
    | |- context [App.current_user username ?d] =>
        rewrite (current_user_users username db d Logic.eq_refl)
    end.
    rewrite Hu.
    split; [ reflexivity | ]. cbn [App.submissions].
    rewrite filter_app. cbn [filter App.Submission.user_id row].
    now rewrite Nat.eqb_refl.
  - intros other_name other Ho Hne. unfold App.get_submission.
    match goal with
    | |- context [App.current_user other_name ?d] =>
        rewrite (current_user_users other_name db d Logic.eq_refl)
    end.
    rewrite Ho.
    cbn [App.submissions]. rewrite Hfind.
    destruct (Nat.eqb_spec (App.Submission.user_id row) (App.User.id other));
      [ congruence | reflexivity ].
Qed.

Lemma stored_submission_is_read_back_witness :
  App.get_submission (App.Submission.id Sample.stored) "ada" Sample.db_after
  = inr Sample.stored
  /\ (exists before,
        App.list_submissions "ada" Sample.db = inr before
        /\ App.list_submissions "ada" Sample.db_after
           = inr (before ++ [Sample.stored]))
  /\ (forall other_name other,
        App.current_user other_name Sample.db = inr other ->
        App.User.id other <> App.Submission.user_id Sample.stored ->
        App.get_submission (App.Submission.id Sample.stored) other_name
                           Sample.db_after
        = inl (App.HTTPException 403 "You can only view your own submissions")).
Proof.
  apply (stored_submission_is_read_back Sample.world 1 Sample.solution "ada"
           Sample.db Sample.stored Sample.db_after
           [docker_argv_sync (script_sync Scenario.code "{}" "null" 0)]).
  reflexivity.
Defined.
